(** * Secure-Email-Validator: the validation pipeline of
    [internal/checker/email_checker.go], embedded and verified.

    Layout:
    - [GoString]: Go strings as byte sequences and the functions of Go's
      [strings] package the checker calls;
    - [Regexp]: the regular expression of [isValidEmailFormat] and its matcher;
    - [Effects]: the probes of the checker (DNS, [dig], SMTP, stdout) as
      events of a small free monad, run against an arbitrary oracle;
    - [Checker]: the functions of [email_checker.go];
    - the theorems. *)

From Stdlib Require Import List Ascii String ZArith NArith Bool Arith Lia.
Import ListNotations.

(* ================================================================= *)
(** ** Go strings *)

(** A Go [string] is an immutable sequence of bytes; [len] counts bytes. *)
Definition gostring := list ascii.

(** [len(s)]: the number of bytes. *)
Abbreviation len := (@List.length ascii).

(** String literals of the source. *)
Definition str (s : string) : gostring := list_ascii_of_string s.

Definition byte_eqb (a b : ascii) : bool := Ascii.eqb a b.

Fixpoint gostring_eqb (s t : gostring) : bool :=
  match s, t with
  | [], [] => true
  | a :: s', b :: t' => byte_eqb a b && gostring_eqb s' t'
  | _, _ => false
  end.

(** Go consults Unicode tables as soon as a string holds a byte outside
    ASCII.  Those tables belong to the Go runtime, not to this repository:
    the slow paths of the [strings] functions are parameters of the
    development, the ASCII fast paths are written out. *)
Class Unicode := {
  (** [strings.Map(unicode.ToLower, s)] *)
  mapToLower : gostring -> gostring;
  (** [strings.Map(unicode.ToUpper, s)] *)
  mapToUpper : gostring -> gostring;
  (** [strings.TrimFunc(s, unicode.IsSpace)] *)
  trimFuncIsSpace : gostring -> gostring;
  (** [strings.TrimRightFunc(s, unicode.IsSpace)] *)
  trimRightFuncIsSpace : gostring -> gostring
}.

(** An instance for evaluating the model on concrete inputs: text whose
    runes outside ASCII are caseless and are not white space, on which the
    four slow paths return their argument. *)
Definition caselessUnicode : Unicode :=
  {| mapToLower := fun s => s;
     mapToUpper := fun s => s;
     trimFuncIsSpace := fun s => s;
     trimRightFuncIsSpace := fun s => s |}.

Module GoString.

Local Open Scope char_scope.

(** [c >= utf8.RuneSelf] *)
Definition nonASCII (c : ascii) : bool := ("127" <? c)%char.

Definition isASCII (s : gostring) : bool := forallb (fun c => negb (nonASCII c)) s.

Definition isUpperByte (c : ascii) : bool := ("A" <=? c) && (c <=? "Z").
Definition isLowerByte (c : ascii) : bool := ("a" <=? c) && (c <=? "z").

(** [c += 'a' - 'A'] and [c -= 'a' - 'A'] on a byte. *)
Definition lowerByte (c : ascii) : ascii :=
  if isUpperByte c then ascii_of_N (N_of_ascii c + 32) else c.
Definition upperByte (c : ascii) : ascii :=
  if isLowerByte c then ascii_of_N (N_of_ascii c - 32) else c.

(** The table [asciiSpace] of package [strings]. *)
Definition asciiSpace (c : ascii) : bool :=
  byte_eqb c "009" || byte_eqb c "010" || byte_eqb c "011" ||
  byte_eqb c "012" || byte_eqb c "013" || byte_eqb c " ".

Section WithUnicode.
Context {U : Unicode}.

(** [strings.ToLower]: ASCII-only strings are lowered byte by byte (and
    returned as they are when no byte is an upper-case letter); any other
    string goes through [Map(unicode.ToLower, s)]. *)
Definition ToLower (s : gostring) : gostring :=
  if isASCII s then
    if negb (existsb isUpperByte s) then s else map lowerByte s
  else mapToLower s.

(** [strings.ToUpper], the mirror image. *)
Definition ToUpper (s : gostring) : gostring :=
  if isASCII s then
    if negb (existsb isLowerByte s) then s else map upperByte s
  else mapToUpper s.

(** One scanning loop of [strings.TrimSpace]: skip ASCII white space;
    stop at the first other byte, reporting whether it is outside ASCII. *)
Fixpoint skipSpace (s : gostring) : bool * gostring :=
  match s with
  | [] => (false, [])
  | c :: s' =>
      if nonASCII c then (true, s)
      else if asciiSpace c then skipSpace s'
      else (false, s)
  end.

(** [strings.TrimSpace]: the loop from the start, then the loop from the
    end (here: on the reversed remainder); either loop hands over to the
    Unicode-aware trimming when it meets a byte outside ASCII. *)
Definition TrimSpace (s : gostring) : gostring :=
  let (slow, s1) := skipSpace s in
  if slow then trimFuncIsSpace s1
  else
    let (slow', r) := skipSpace (rev s1) in
    if slow' then trimRightFuncIsSpace (rev r) else rev r.

End WithUnicode.

(** [strings.Split(s, sep)] for a separator [sep] of one byte (the checker
    splits on ["@"] only): the pieces between the occurrences of [sep], so
    one piece more than there are occurrences. *)
Fixpoint Split (s : gostring) (sep : ascii) : list gostring :=
  match s with
  | [] => [[]]
  | c :: s' =>
      if byte_eqb c sep then [] :: Split s' sep
      else match Split s' sep with
           | p :: ps => (c :: p) :: ps
           | [] => [[c]]
           end
  end.

(** [strings.ReplaceAll(s, old, new)] for [old] of one byte. *)
Definition ReplaceAll (s : gostring) (old : ascii) (new : gostring) : gostring :=
  flat_map (fun c => if byte_eqb c old then new else [c]) s.

(** [strings.Index(s, substr)] for [substr] of one byte: the index of its
    first occurrence, [-1] when there is none. *)
Fixpoint Index (s : gostring) (b : ascii) : Z :=
  match s with
  | [] => (-1)%Z
  | c :: s' =>
      if byte_eqb c b then 0%Z
      else let i := Index s' b in
           if (i =? -1)%Z then (-1)%Z else (i + 1)%Z
  end.

(** The slice expression [s[:hi]], on the indices the checker uses
    ([0 <= hi <= len(s)]). *)
Definition sliceTo (s : gostring) (hi : Z) : gostring := firstn (Z.to_nat hi) s.

(** [strings.HasPrefix] and [strings.HasSuffix]. *)
Definition HasPrefix (s prefix : gostring) : bool :=
  (len prefix <=? len s)%nat && gostring_eqb (firstn (len prefix) s) prefix.

Definition HasSuffix (s suffix : gostring) : bool :=
  (len suffix <=? len s)%nat &&
  gostring_eqb (skipn (len s - len suffix) s) suffix.

(** [strings.Contains(s, substr)]: [substr] occurs at some offset of [s]. *)
Fixpoint Contains (s substr : gostring) : bool :=
  HasPrefix s substr ||
  match s with
  | [] => false
  | _ :: s' => Contains s' substr
  end.

End GoString.

(* ================================================================= *)
(** ** Regular expressions *)

Module Regexp.

Local Open Scope char_scope.

(** The fragment of Go's [regexp/syntax] that the pattern of
    [isValidEmailFormat] is written in.  A character class is the list of
    its ranges [lo-hi]; a multi-byte rune is in none of the (ASCII) classes,
    so matching bytes is matching runes. *)
Inductive regex : Type :=
| Void : regex
| Eps : regex
| Class (ranges : list (ascii * ascii)) : regex
| Cat (r1 r2 : regex) : regex
| Alt (r1 r2 : regex) : regex
| Star (r : regex) : regex.

(** [r+], [r?] and [r{0,n}].  The bounded repetition is unfolded the way
    [regexp/syntax] simplifies it: [r{0,n}] is [(r(r(...)?)?)?]. *)
Definition Plus (r : regex) : regex := Cat r (Star r).
Definition Opt (r : regex) : regex := Alt r Eps.
Fixpoint Upto (n : nat) (r : regex) : regex :=
  match n with
  | O => Eps
  | S k => Opt (Cat r (Upto k r))
  end.

Definition one (c : ascii) : ascii * ascii := (c, c).

Definition inRange (c : ascii) (rg : ascii * ascii) : bool :=
  (fst rg <=? c) && (c <=? snd rg).

Definition inClass (ranges : list (ascii * ascii)) (c : ascii) : bool :=
  existsb (inRange c) ranges.

(** Does [r] accept the empty string? *)
Fixpoint nullable (r : regex) : bool :=
  match r with
  | Void => false
  | Eps => true
  | Class _ => false
  | Cat r1 r2 => nullable r1 && nullable r2
  | Alt r1 r2 => nullable r1 || nullable r2
  | Star _ => true
  end.

(** The residual of [r] after reading the byte [c]. *)
Fixpoint deriv (c : ascii) (r : regex) : regex :=
  match r with
  | Void => Void
  | Eps => Void
  | Class rs => if inClass rs c then Eps else Void
  | Cat r1 r2 =>
      if nullable r1 then Alt (Cat (deriv c r1) r2) (deriv c r2)
      else Cat (deriv c r1) r2
  | Alt r1 r2 => Alt (deriv c r1) (deriv c r2)
  | Star r1 => Cat (deriv c r1) (Star r1)
  end.

(** [re.MatchString(s)] for a pattern [^r$] (no flags): [^] and [$] stand
    for the two ends of the text, so [r] has to accept the whole of [s]. *)
Fixpoint MatchString (r : regex) (s : gostring) : bool :=
  match s with
  | [] => nullable r
  | c :: s' => MatchString (deriv c r) s'
  end.

(** The language of a regular expression. *)
Inductive Lang : regex -> gostring -> Prop :=
| LEps : Lang Eps []
| LClass rs c : inClass rs c = true -> Lang (Class rs) [c]
| LCat r1 r2 s1 s2 : Lang r1 s1 -> Lang r2 s2 -> Lang (Cat r1 r2) (s1 ++ s2)
| LAltL r1 r2 s : Lang r1 s -> Lang (Alt r1 r2) s
| LAltR r1 r2 s : Lang r2 s -> Lang (Alt r1 r2) s
| LStarNil r : Lang (Star r) []
| LStarApp r s1 s2 : Lang r s1 -> Lang (Star r) s2 -> Lang (Star r) (s1 ++ s2).

End Regexp.

(* ================================================================= *)
(** ** Effects: the probes of the checker *)

Module Effects.

(** A Go [error] value; the checker tests it against [nil] and prints it. *)
Record error : Type := mkError { errorText : gostring }.

(** [net.MX]; [Pref] is a [uint16]. *)
Record MX : Type := mkMX { Host : gostring; Pref : Z }.

(** Handles of an open connection ([net.Conn]) and of an SMTP session
    ([*smtp.Client]). *)
Definition conn := nat.
Definition client := nat.

(** The calls that leave the process, each with the type of its answer. *)
Inductive Event : Type -> Type :=
| LookupMX (domain : gostring) : Event (list MX * option error)
    (** [net.LookupMX(domain)] *)
| CommandOutput (name : gostring) (args : list gostring) : Event (gostring * option error)
    (** [exec.Command(name, args...).Output()] *)
| DialTimeout (network address : gostring) (timeout : Z) : Event (conn + error)
    (** [net.DialTimeout(network, address, timeout)] *)
| NewClient (c : conn) (host : gostring) : Event (client + error)
    (** [smtp.NewClient(conn, host)] *)
| Extension (cl : client) (ext : gostring) : Event (bool * gostring)
    (** [client.Extension(ext)] *)
| Quit (cl : client) : Event (option error)
    (** [client.Quit()] *)
| Close (c : conn) : Event (option error)
    (** [conn.Close()] *)
| Printf (text : gostring) : Event unit.
    (** [fmt.Printf], with the text it writes to standard output *)

(** Programs over these events. *)
Inductive Prog (A : Type) : Type :=
| Ret (a : A) : Prog A
| Vis (X : Type) (e : Event X) (k : X -> Prog A) : Prog A.

Arguments Ret {A} a.
Arguments Vis {A X} e k.

Fixpoint bind {A B : Type} (p : Prog A) (f : A -> Prog B) : Prog B :=
  match p with
  | Ret a => f a
  | Vis e k => Vis e (fun x => bind (k x) f)
  end.

Definition trigger {X : Type} (e : Event X) : Prog X := Vis e (fun x => Ret x).

(** One performed call: the event and the answer it got. *)
Inductive Call : Type :=
| call (X : Type) (e : Event X) (x : X) : Call.

Arguments call {X} e x.

(** The world outside the process: it answers each call, and its answer may
    depend on every call made before (two lookups of one domain need not
    agree). *)
Definition Oracle : Type := list Call -> forall X : Type, Event X -> X.

(** Running a program after the calls [h]: the value it returns and the
    calls it makes, oldest first. *)
Fixpoint run {A : Type} (o : Oracle) (h : list Call) (p : Prog A) : A * list Call :=
  match p with
  | Ret a => (a, [])
  | Vis e k =>
      let x := o h _ e in
      let (a, t) := run o (h ++ [call e x]) (k x) in
      (a, call e x :: t)
  end.

(** Classification of the calls by the probe they belong to. *)
Definition isLookupMX (c : Call) : bool :=
  match c with call (LookupMX _) _ => true | _ => false end.
Definition isDNSSECProbe (c : Call) : bool :=
  match c with call (CommandOutput _ _) _ => true | _ => false end.
Definition isSTARTTLSProbe (c : Call) : bool :=
  match c with
  | call (DialTimeout _ _ _) _ | call (NewClient _ _) _ | call (Extension _ _) _
  | call (Quit _) _ | call (Close _) _ => true
  | _ => false
  end.

End Effects.

Declare Scope prog_scope.
Delimit Scope prog_scope with prog.
Notation "x <- p ;; q" := (Effects.bind p (fun x => q))
  (at level 61, p at next level, right associativity) : prog_scope.
Notation "p ;; q" := (Effects.bind p (fun _ => q))
  (at level 61, right associativity) : prog_scope.

(* ================================================================= *)
(** ** The checker: [internal/config/config.go] and
       [internal/checker/email_checker.go] *)

Module Checker.

Import GoString Regexp Effects.
Local Open Scope prog_scope.
Local Open Scope char_scope.

(** [config.Config] *)
Record Config : Type := mkConfig {
  Timeout : Z;     (* SMTP connection timeout in seconds *)
  Verbose : bool   (* Enable verbose logging *)
}.

Definition DefaultConfig : Config := {| Timeout := 10; Verbose := false |}.

Record EmailChecker : Type := mkEmailChecker { config : Config }.

(** [NewEmailChecker(cfg)]; [None] is the [nil] pointer. *)
Definition NewEmailChecker (cfg : option Config) : EmailChecker :=
  match cfg with
  | None => {| config := DefaultConfig |}
  | Some c => {| config := c |}
  end.

Record ValidationResult : Type := mkResult {
  Valid : bool;
  Reason : gostring;
  NormalizedEmail : gostring;
  Domain : gostring;
  HasMXRecord : bool;
  HasDNSSEC : bool;
  PrimaryMXServer : gostring;
  SupportsSTARTTLS : bool
}.

(** [&ValidationResult{}]: every field at the zero value of its type. *)
Definition zeroResult : ValidationResult :=
  {| Valid := false; Reason := []; NormalizedEmail := []; Domain := [];
     HasMXRecord := false; HasDNSSEC := false; PrimaryMXServer := [];
     SupportsSTARTTLS := false |}.

(** The assignments [result.F = v]. *)
Definition setValid (v : bool) (r : ValidationResult) : ValidationResult :=
  mkResult v (Reason r) (NormalizedEmail r) (Domain r) (HasMXRecord r)
           (HasDNSSEC r) (PrimaryMXServer r) (SupportsSTARTTLS r).
Definition setReason (v : gostring) (r : ValidationResult) : ValidationResult :=
  mkResult (Valid r) v (NormalizedEmail r) (Domain r) (HasMXRecord r)
           (HasDNSSEC r) (PrimaryMXServer r) (SupportsSTARTTLS r).
Definition setNormalizedEmail (v : gostring) (r : ValidationResult) : ValidationResult :=
  mkResult (Valid r) (Reason r) v (Domain r) (HasMXRecord r)
           (HasDNSSEC r) (PrimaryMXServer r) (SupportsSTARTTLS r).
Definition setDomain (v : gostring) (r : ValidationResult) : ValidationResult :=
  mkResult (Valid r) (Reason r) (NormalizedEmail r) v (HasMXRecord r)
           (HasDNSSEC r) (PrimaryMXServer r) (SupportsSTARTTLS r).
Definition setHasMXRecord (v : bool) (r : ValidationResult) : ValidationResult :=
  mkResult (Valid r) (Reason r) (NormalizedEmail r) (Domain r) v
           (HasDNSSEC r) (PrimaryMXServer r) (SupportsSTARTTLS r).
Definition setHasDNSSEC (v : bool) (r : ValidationResult) : ValidationResult :=
  mkResult (Valid r) (Reason r) (NormalizedEmail r) (Domain r) (HasMXRecord r)
           v (PrimaryMXServer r) (SupportsSTARTTLS r).
Definition setPrimaryMXServer (v : gostring) (r : ValidationResult) : ValidationResult :=
  mkResult (Valid r) (Reason r) (NormalizedEmail r) (Domain r) (HasMXRecord r)
           (HasDNSSEC r) v (SupportsSTARTTLS r).
Definition setSupportsSTARTTLS (v : bool) (r : ValidationResult) : ValidationResult :=
  mkResult (Valid r) (Reason r) (NormalizedEmail r) (Domain r) (HasMXRecord r)
           (HasDNSSEC r) (PrimaryMXServer r) v.

(** *** [isValidEmailFormat] *)

(** [[a-zA-Z0-9.!#$%&'*+/=?^_`{|}~-]] *)
Definition localClass : regex :=
  Class [("a", "z"); ("A", "Z"); ("0", "9"); one "."; one "!"; one "#";
         one "$"; one "%"; one "&"; one "'"; one "*"; one "+"; one "/";
         one "="; one "?"; one "^"; one "_"; one "`"; one "{"; one "|";
         one "}"; one "~"; one "-"].

(** [[a-zA-Z0-9]] and [[a-zA-Z0-9-]] *)
Definition alnum : regex := Class [("a", "z"); ("A", "Z"); ("0", "9")].
Definition alnumHyphen : regex := Class [("a", "z"); ("A", "Z"); ("0", "9"); one "-"].

(** [[a-zA-Z0-9](?:[a-zA-Z0-9-]{0,61}[a-zA-Z0-9])?] *)
Definition labelRegex : regex := Cat alnum (Opt (Cat (Upto 61 alnumHyphen) alnum)).

(** The pattern between [^] and [$]:
    [local+ @ label (?:\. label)*]. *)
Definition emailRegex : regex :=
  Cat (Plus localClass)
      (Cat (Class [one "@"])
           (Cat labelRegex (Star (Cat (Class [one "."]) labelRegex)))).

Definition isValidEmailFormat (email : gostring) : bool :=
  MatchString emailRegex email && (len email <=? 254)%nat.

Section WithUnicode.
Context {U : Unicode}.

(** *** [normalizeEmail] *)
Definition normalizeEmail (email : gostring) : gostring :=
  let email := ToLower (TrimSpace email) in
  let parts := Split email "@" in
  if negb (List.length parts =? 2)%nat then email
  else
    let local := nth 0 parts [] in
    let domain := nth 1 parts [] in
    if gostring_eqb domain (str "gmail.com") || gostring_eqb domain (str "googlemail.com")
    then
      let local := ReplaceAll local "." [] in
      let plusIndex := Index local "+" in
      let local := if negb (plusIndex =? -1)%Z then sliceTo local plusIndex else local in
      let domain := str "gmail.com" in
      local ++ str "@" ++ domain
    else local ++ str "@" ++ domain.

(** *** [extractDomain] *)
Definition extractDomain (email : gostring) : gostring :=
  let parts := Split email "@" in
  if negb (List.length parts =? 2)%nat then []
  else ToLower (TrimSpace (nth 1 parts [])).

(** [if ec.config.Verbose { fmt.Printf(...) }] *)
Definition verbosePrintf (ec : EmailChecker) (text : gostring) : Prog unit :=
  if Verbose (config ec) then trigger (Printf text) else Ret tt.

(** The verb [%v] on an [error]; a [nil] error prints as [<nil>]. *)
Definition fmtError (err : option error) : gostring :=
  match err with
  | Some e => errorText e
  | None => str "<nil>"
  end.

Definition isNil {A : Type} (x : option A) : bool :=
  match x with None => true | Some _ => false end.

Definition newline : gostring := ["010"].

(** *** [hasMXRecord] *)
Definition hasMXRecord (ec : EmailChecker) (domain : gostring) : Prog bool :=
  r <- trigger (LookupMX domain) ;;
  let '(mxRecords, err) := r in
  if negb (isNil err) then
    verbosePrintf ec (str "MX lookup failed for " ++ domain ++ str ": "
                        ++ fmtError err ++ newline) ;;
    Ret false
  else Ret (0 <? List.length mxRecords)%nat.

(** *** [hasDNSSEC] *)
Definition hasDNSSEC (ec : EmailChecker) (domain : gostring) : Prog bool :=
  r <- trigger (CommandOutput (str "dig")
                  [str "+dnssec"; str "+short"; str "SOA"; domain]) ;;
  let '(output, err) := r in
  if negb (isNil err) then
    verbosePrintf ec (str "DNSSEC check failed for " ++ domain ++ str ": "
                        ++ fmtError err ++ newline) ;;
    Ret false
  else
    let outputStr := output in
    Ret (Contains outputStr (str "RRSIG") ||
         Contains (ToUpper outputStr) (str "RRSIG")).

(** *** [getPrimaryMXServer] *)

(** The loop over [mxRecords]; [None] is the [nil] of [primaryMX]. *)
Definition pickPrimary (primaryMX : option MX) (mx : MX) : option MX :=
  match primaryMX with
  | None => Some mx
  | Some p => if (Pref mx <? Pref p)%Z then Some mx else primaryMX
  end.

Definition primaryOf (mxRecords : list MX) : option MX :=
  fold_left pickPrimary mxRecords None.

Definition getPrimaryMXServer (ec : EmailChecker) (domain : gostring) : Prog gostring :=
  r <- trigger (LookupMX domain) ;;
  let '(mxRecords, err) := r in
  if negb (isNil err) || (List.length mxRecords =? 0)%nat then
    verbosePrintf ec (str "Failed to get MX records for " ++ domain ++ str ": "
                        ++ fmtError err ++ newline) ;;
    Ret []
  else
    match primaryOf mxRecords with
    | Some primaryMX =>
        let host := Host primaryMX in
        let host := if HasSuffix host (str ".")
                    then sliceTo host (Z.of_nat (len host) - 1) else host in
        Ret host
    | None => Ret []
    end.

(** *** [smtpSupportsSTARTTLS] *)

(** Multiplication of [time.Duration] values ([int64]) wraps around. *)
Definition wrapInt64 (z : Z) : Z :=
  ((z + 2 ^ 63) mod 2 ^ 64 - 2 ^ 63)%Z.

(** [time.Second], in nanoseconds. *)
Definition Second : Z := 1000000000%Z.

(** The two deferred calls run, last deferred first, when the function
    returns: [client.Quit()], then [conn.Close()]. *)
Definition smtpSupportsSTARTTLS (ec : EmailChecker) (mxServer : gostring) : Prog bool :=
  let timeout := wrapInt64 (Timeout (config ec) * Second) in
  d <- trigger (DialTimeout (str "tcp") (mxServer ++ str ":25") timeout) ;;
  match d with
  | inr err =>
      verbosePrintf ec (str "Failed to connect to SMTP server " ++ mxServer
                          ++ str ": " ++ fmtError (Some err) ++ newline) ;;
      Ret false
  | inl conn =>
      c <- trigger (NewClient conn mxServer) ;;
      match c with
      | inr err =>
          verbosePrintf ec (str "Failed to create SMTP client for " ++ mxServer
                              ++ str ": " ++ fmtError (Some err) ++ newline) ;;
          trigger (Close conn) ;;
          Ret false
      | inl client =>
          x <- trigger (Extension client (str "STARTTLS")) ;;
          let '(ok, _) := x in
          trigger (Quit client) ;;
          trigger (Close conn) ;;
          Ret ok
      end
  end.

(** *** [ValidateEmail] *)
Definition ValidateEmail (ec : EmailChecker) (email : gostring) : Prog ValidationResult :=
  let result := zeroResult in
  (* Basic email format validation *)
  if negb (isValidEmailFormat email) then
    let result := setValid false result in
    let result := setReason (str "Invalid email format") result in
    let result := setNormalizedEmail email result in
    Ret result
  else
    (* Normalize email (especially Gmail) *)
    let result := setNormalizedEmail (normalizeEmail email) result in
    let result := setDomain (extractDomain (NormalizedEmail result)) result in
    (* Check MX record *)
    mx <- hasMXRecord ec (Domain result) ;;
    let result := setHasMXRecord mx result in
    if negb (HasMXRecord result) then
      let result := setValid false result in
      let result := setReason (str "Domain doesn't have MX record") result in
      Ret result
    else
      (* Check DNSSEC *)
      sec <- hasDNSSEC ec (Domain result) ;;
      let result := setHasDNSSEC sec result in
      if negb (HasDNSSEC result) then
        let result := setValid false result in
        let result := setReason (str "Domain doesn't support DNSSEC") result in
        Ret result
      else
        (* Get primary MX server *)
        server <- getPrimaryMXServer ec (Domain result) ;;
        let result := setPrimaryMXServer server result in
        if gostring_eqb (PrimaryMXServer result) [] then
          let result := setValid false result in
          let result := setReason (str "Failed to get MX server") result in
          Ret result
        else
          (* Check STARTTLS support *)
          tls <- smtpSupportsSTARTTLS ec (PrimaryMXServer result) ;;
          let result := setSupportsSTARTTLS tls result in
          if negb (SupportsSTARTTLS result) then
            let result := setValid false result in
            let result := setReason (str "SMTP server doesn't support STARTTLS") result in
            Ret result
          else
            let result := setValid true result in
            let result := setReason
              (str "Email is valid and domain supports secure mail delivery") result in
            Ret result.

End WithUnicode.

End Checker.

(* ================================================================= *)
(** ** What the specification says, in its own words *)

Module Spec.

Import GoString Regexp Effects Checker.
Local Open Scope char_scope.

(** *** The structural pattern of an address *)

Definition isDigitByte (c : ascii) : bool := ("0" <=? c) && (c <=? "9").

Definition isAlnum (c : ascii) : bool :=
  isLowerByte c || isUpperByte c || isDigitByte c.

(** The allowed characters of a local part: letters, digits and the
    punctuation of an RFC 5322 atom, with the dot. *)
Definition isLocalChar (c : ascii) : bool :=
  isAlnum c || existsb (byte_eqb c) (str ".!#$%&'*+/=?^_`{|}~-").

Definition isLabelChar (c : ascii) : bool := isAlnum c || byte_eqb c "-".

(** A label: 1 to 63 characters, alphanumeric or hyphen, the first and the
    last alphanumeric. *)
Definition isLabel (l : gostring) : bool :=
  (1 <=? len l)%nat && (len l <=? 63)%nat && forallb isLabelChar l &&
  isAlnum (hd "-" l) && isAlnum (last l "-").

(** The pieces of [s] between the occurrences of [sep]. *)
Definition piecesOf (sep : ascii) (s : gostring) : list gostring := Split s sep.

(** Exactly one [@]; before it a non-empty local part of allowed characters;
    after it labels separated by dots (an empty piece, as a leading, a
    trailing or a doubled dot leaves one, is not a label). *)
Definition wellFormed (s : gostring) : bool :=
  match piecesOf "@" s with
  | [local; domain] =>
      (1 <=? len local)%nat && forallb isLocalChar local &&
      forallb isLabel (piecesOf "." domain)
  | _ => false
  end.

Definition formatSpec (s : gostring) : bool :=
  wellFormed s && (len s <=? 254)%nat.

(** *** Normalisation and domain extraction *)

Definition countByte (c : ascii) (s : gostring) : nat := count_occ ascii_dec s c.

(** The text before the first [c], and the text after it. *)
Fixpoint before (c : ascii) (s : gostring) : gostring :=
  match s with
  | [] => []
  | a :: s' => if byte_eqb a c then [] else a :: before c s'
  end.

Fixpoint after (c : ascii) (s : gostring) : gostring :=
  match s with
  | [] => []
  | a :: s' => if byte_eqb a c then s' else after c s'
  end.

Definition isGmailDomain (d : gostring) : bool :=
  gostring_eqb d (str "gmail.com") || gostring_eqb d (str "googlemail.com").

(** Delete every dot, then keep what precedes the first plus sign. *)
Definition gmailLocal (local : gostring) : gostring :=
  before "+" (filter (fun c => negb (byte_eqb c ".")) local).

(** Gmail folding of a canonical address: with exactly one [@] and a Gmail
    domain after it, the local part is rewritten and the domain is
    [gmail.com]; any other address stays as it is. *)
Definition foldGmail (e : gostring) : gostring :=
  if (countByte "@" e =? 1)%nat && isGmailDomain (after "@" e)
  then gmailLocal (before "@" e) ++ str "@gmail.com"
  else e.

Section WithUnicode.
Context {U : Unicode}.

(** The trimmed, lower-cased input. *)
Definition canonical (a : gostring) : gostring := ToLower (TrimSpace a).

Definition normalizeSpec (a : gostring) : gostring := foldGmail (canonical a).

Definition extractDomainSpec (email : gostring) : gostring :=
  if (countByte "@" email =? 1)%nat then ToLower (TrimSpace (after "@" email))
  else [].

End WithUnicode.

(** Addresses without white space and without bytes outside ASCII. *)
Definition isPlainByte (c : ascii) : bool := negb (nonASCII c) && negb (asciiSpace c).
Definition isPlain (s : gostring) : bool := forallb isPlainByte s.

(** Plain text without upper-case letters. *)
Definition isPlainLower (c : ascii) : bool := isPlainByte c && negb (isUpperByte c).

(** [s] holds no byte [sep]. *)
Definition lacks (sep : ascii) (s : gostring) : Prop := Forall (fun c => c <> sep) s.

(** The bytes a domain is made of: label characters and dots. *)
Definition isDomainChar (c : ascii) : bool := isLabelChar c || byte_eqb c ".".

(** The part of [emailRegex] after the [@]. *)
Definition domainRegex : regex := Cat labelRegex (Star (Cat (Class [one "."]) labelRegex)).

(** *** The primary MX server *)

(** [mx] is the record at index [i], no record has a smaller preference, and
    every record before it has a greater one. *)
Definition firstMinimum (records : list MX) (i : nat) (mx : MX) : Prop :=
  nth_error records i = Some mx /\
  (forall mx', In mx' records -> (Pref mx <= Pref mx')%Z) /\
  (forall j mx', (j < i)%nat -> nth_error records j = Some mx' ->
                 (Pref mx < Pref mx')%Z).

(** [host] without its final dot, when it has one. *)
Definition stripDot (host : gostring) : gostring :=
  match rev host with
  | c :: r => if byte_eqb c "." then rev r else host
  | [] => host
  end.

(** *** The DNSSEC marker *)

(** Two texts are equal up to the case of their ASCII letters. *)
Definition equalFold (s t : gostring) : bool :=
  gostring_eqb (map upperByte s) (map upperByte t).

(** [marker] occurs in [s] at some offset, in some mix of cases. *)
Definition containsFold (s marker : gostring) : bool :=
  existsb (fun i => equalFold (firstn (len marker) (skipn i s)) marker)
          (seq 0 (S (len s))).

(** *** The pipeline *)

Definition reasonFormat : gostring := str "Invalid email format".
Definition reasonMX : gostring := str "Domain doesn't have MX record".
Definition reasonDNSSEC : gostring := str "Domain doesn't support DNSSEC".
Definition reasonPrimary : gostring := str "Failed to get MX server".
Definition reasonSTARTTLS : gostring := str "SMTP server doesn't support STARTTLS".
Definition reasonValid : gostring :=
  str "Email is valid and domain supports secure mail delivery".

(** The outcomes of the five stages, in the order of the pipeline. *)
Record Stages : Type := mkStages {
  formatOK : bool;
  mxOK : bool;
  dnssecOK : bool;
  primaryMX : gostring;
  starttlsOK : bool
}.

Definition nonEmpty (s : gostring) : bool := negb (gostring_eqb s []).

(** The reason of the first stage that fails. *)
Definition firstFailure (st : Stages) : option gostring :=
  if negb (formatOK st) then Some reasonFormat
  else if negb (mxOK st) then Some reasonMX
  else if negb (dnssecOK st) then Some reasonDNSSEC
  else if negb (nonEmpty (primaryMX st)) then Some reasonPrimary
  else if negb (starttlsOK st) then Some reasonSTARTTLS
  else None.

Section Pipeline.
Context {U : Unicode}.
Variable ec : EmailChecker.
Variable o : Oracle.
Variable h : list Call.
Variable email : gostring.

(** The domain the probes are asked about. *)
Definition probedDomain : gostring := extractDomain (normalizeEmail email).

(** Each stage run where the pipeline would run it: after the calls of the
    stages before it. *)
Definition runMX : bool * list Call := run o h (hasMXRecord ec probedDomain).
Definition runDNSSEC : bool * list Call :=
  run o (h ++ snd runMX) (hasDNSSEC ec probedDomain).
Definition runPrimary : gostring * list Call :=
  run o (h ++ snd runMX ++ snd runDNSSEC) (getPrimaryMXServer ec probedDomain).
Definition runSTARTTLS : bool * list Call :=
  run o (h ++ snd runMX ++ snd runDNSSEC ++ snd runPrimary)
      (smtpSupportsSTARTTLS ec (fst runPrimary)).

Definition stages : Stages :=
  {| formatOK := isValidEmailFormat email;
     mxOK := fst runMX;
     dnssecOK := fst runDNSSEC;
     primaryMX := fst runPrimary;
     starttlsOK := fst runSTARTTLS |}.

(** Where the pipeline halts, what it returns there and the calls it has
    made by then. *)
Definition halting : ValidationResult * list Call :=
  let ne := normalizeEmail email in
  let d := probedDomain in
  let st := stages in
  if negb (formatOK st) then
    (mkResult false reasonFormat email [] false false [] false, [])
  else if negb (mxOK st) then
    (mkResult false reasonMX ne d false false [] false, snd runMX)
  else if negb (dnssecOK st) then
    (mkResult false reasonDNSSEC ne d true false [] false,
     snd runMX ++ snd runDNSSEC)
  else if negb (nonEmpty (primaryMX st)) then
    (mkResult false reasonPrimary ne d true true [] false,
     snd runMX ++ snd runDNSSEC ++ snd runPrimary)
  else if negb (starttlsOK st) then
    (mkResult false reasonSTARTTLS ne d true true (primaryMX st) false,
     snd runMX ++ snd runDNSSEC ++ snd runPrimary ++ snd runSTARTTLS)
  else
    (mkResult true reasonValid ne d true true (primaryMX st) true,
     snd runMX ++ snd runDNSSEC ++ snd runPrimary ++ snd runSTARTTLS).

End Pipeline.

(** *** Two worlds to run the pipeline in *)

(** A world where nothing answers: lookups find no record, [dig] cannot be
    started, connections are refused. *)
Definition silentWorld : Oracle :=
  fun _ X e =>
    match e in Event T return T with
    | LookupMX _ => ([], None)
    | CommandOutput _ _ => ([], Some (mkError (str "exec: dig: not found")))
    | DialTimeout _ _ _ => inr (mkError (str "connection refused"))
    | NewClient _ _ => inr (mkError (str "EOF"))
    | Extension _ _ => (false, [])
    | Quit _ => None
    | Close _ => None
    | Printf _ => tt
    end.

(** A world where the domain has a backup server and two mail servers of
    equal preference, the stub of [dig] reports the marker (in lower case),
    and the servers offer STARTTLS. *)
Definition secureWorld : Oracle :=
  fun _ X e =>
    match e in Event T return T with
    | LookupMX _ =>
        ([mkMX (str "backup.example.com.") 20; mkMX (str "mail.example.com.") 10;
          mkMX (str "mail2.example.com.") 10], None)
    | CommandOutput _ _ =>
        (str "example.com. 3600 IN rrsig SOA 13 2 3600 20300101000000 c2ln", None)
    | DialTimeout _ _ _ => inl 1%nat
    | NewClient _ _ => inl 2%nat
    | Extension _ _ => (true, [])
    | Quit _ => None
    | Close _ => None
    | Printf _ => tt
    end.

Definition verboseChecker : EmailChecker := NewEmailChecker (Some (mkConfig 5 true)).
Definition defaultChecker : EmailChecker := NewEmailChecker None.

End Spec.

(* ================================================================= *)
(** ** [internal/utils/helpers.go] *)

Module Utils.

Local Open Scope char_scope.

(** [GetVersion] *)
Definition GetVersion : gostring := str "1.0.0".

(** [IsValidDomain]; [domain[0]] and [domain[len(domain)-1]] are read only
    when [domain] is not empty. *)
Definition IsValidDomain (domain : gostring) : bool :=
  if (len domain =? 0)%nat || (253 <? len domain)%nat then false
  else if byte_eqb (nth 0 domain "000") "." ||
          byte_eqb (nth (len domain - 1) domain "000") "."
       then false
       else true.

End Utils.

(* ================================================================= *)
(** ** The program: [main.go] *)

Module Main.

Import GoString Effects Checker.
Local Open Scope prog_scope.
Local Open Scope char_scope.

(** [fmt.Println(s)] writes [s] and a newline to standard output, and
    [fmt.Printf] its formatted text: both are the event [Printf]. *)
Definition Println (s : gostring) : Prog unit := trigger (Printf (s ++ newline)).
Definition PrintfText (text : gostring) : Prog unit := trigger (Printf text).

(** The verb [%t]. *)
Definition fmtBool (b : bool) : gostring := if b then str "true" else str "false".

Definition quote : gostring := ["034"].

Fixpoint printLines (lines : list gostring) : Prog unit :=
  match lines with
  | [] => Ret tt
  | l :: rest => Println l ;; printLines rest
  end.

(** [showHelp]: its [fmt.Println] calls, in order. *)
Definition showHelp : Prog unit :=
  printLines
    [str "Secure Email Validator";
     str "A professional tool for email security validation";
     str "Usage: secure-email-validator [options]";
     newline ++ str "Modes:";
     str "  CLI Mode (default): Validate single email";
     str "  Server Mode: Run as HTTP API server";
     newline ++ str "CLI Options:";
     str "  -email string     Email address to validate (required for CLI mode)";
     str "  -verbose         Enable verbose output";
     str "  -timeout int     SMTP connection timeout in seconds (default 10)";
     str "  -json           Output result in JSON format";
     str "  -help           Show this help message";
     newline ++ str "Server Options:";
     str "  -server         Run as HTTP server";
     str "  -port string    Server port (default 8587)";
     newline ++ str "Examples:";
     str "  # CLI mode";
     str "  email-checker -email john.doe@gmail.com -verbose";
     str "  email-checker -email test@example.com -json";
     [];
     str "  # Server mode";
     str "  email-checker -server -port 3000";
     str "  curl 'http://localhost:8587/validate?email=test@gmail.com&verbose=true'"].

(** [printHumanReadableResult] *)
Definition printHumanReadableResult (result : ValidationResult)
    (originalEmail : gostring) (verbose : bool) : Prog unit :=
  (if Valid result then
     PrintfText (str "✅ Email '" ++ originalEmail ++ str "' is valid and secure" ++ newline) ;;
     (if negb (gostring_eqb (NormalizedEmail result) originalEmail) then
        PrintfText (str "📧 Normalized: " ++ NormalizedEmail result ++ newline)
      else Ret tt) ;;
     PrintfText (str "✨ Reason: " ++ Reason result ++ newline)
   else
     PrintfText (str "❌ Email '" ++ originalEmail ++ str "' is invalid" ++ newline) ;;
     (if negb (gostring_eqb (NormalizedEmail result) originalEmail) then
        PrintfText (str "📧 Normalized: " ++ NormalizedEmail result ++ newline)
      else Ret tt) ;;
     PrintfText (str "⚠️  Reason: " ++ Reason result ++ newline)) ;;
  if verbose then
    Println (newline ++ str "--- Detailed Information ---") ;;
    PrintfText (str "Domain: " ++ Domain result ++ newline) ;;
    PrintfText (str "Has MX Record: " ++ fmtBool (HasMXRecord result) ++ newline) ;;
    PrintfText (str "Has DNSSEC: " ++ fmtBool (HasDNSSEC result) ++ newline) ;;
    PrintfText (str "Primary MX Server: " ++ PrimaryMXServer result ++ newline) ;;
    PrintfText (str "Supports STARTTLS: " ++ fmtBool (SupportsSTARTTLS result) ++ newline)
  else Ret tt.

(** The flags of the command line, as [flag.Parse] leaves them. *)
Record Flags : Type := mkFlags {
  email : gostring;
  verbose : bool;
  timeout : Z;
  jsonOutput : bool;
  server : bool;
  port : gostring;
  help : bool
}.

(** How [main] ends: it returns (exit status 0), it calls [os.Exit], or it
    hands over to [startServer], which is not embedded. *)
Inductive Outcome : Type :=
| Returned : Outcome
| Exited (code : Z) : Outcome
| Serving (port : gostring) : Outcome.

(** What is asked of a request ([r.URL.Query().Get]) and done to its
    response writer. *)
Record Request : Type := mkRequest {
  queryEmail : gostring;     (* Get("email") *)
  queryTimeout : gostring;   (* Get("timeout") *)
  queryVerbose : gostring    (* Get("verbose") *)
}.

Inductive ResponseOp : Type :=
| HeaderSet (key value : gostring) : ResponseOp          (* w.Header().Set *)
| WriteHeader (code : Z) : ResponseOp                    (* w.WriteHeader *)
| HttpError (body : gostring) (code : Z) : ResponseOp    (* http.Error *)
| Encode (result : ValidationResult) : ResponseOp        (* json.NewEncoder(w).Encode *)
| EncodeMap (entries : list (gostring * gostring)) : ResponseOp.

(** [strconv.Atoi] where [int] has 64 bits; [None] is a non-nil error.
    The loop over the digits: *)
Fixpoint digitsFrom (n : Z) (s : gostring) : option Z :=
  match s with
  | [] => Some n
  | ch :: s' =>
      if ("0" <=? ch) && (ch <=? "9")
      then digitsFrom (n * 10 + (Z.of_N (N_of_ascii ch) - 48)) s'
      else None
  end.

Definition isSign (c : ascii) : bool := byte_eqb c "-" || byte_eqb c "+".

(** Texts of 1 to 18 bytes take the fast path, which cannot overflow; the
    others go through [ParseInt(s, 10, 0)], which refuses the empty text and
    values outside [int64]. *)
Definition Atoi (s : gostring) : option Z :=
  let sLen := len s in
  if (0 <? sLen)%nat && (sLen <? 19)%nat then
    match s with
    | [] => None
    | c :: rest =>
        let s1 := if isSign c then rest else s in
        if isSign c && (len s1 <? 1)%nat then None
        else match digitsFrom 0 s1 with
             | None => None
             | Some n => Some (if byte_eqb c "-" then (- n)%Z else n)
             end
    end
  else
    match s with
    | [] => None
    | c :: rest =>
        let s1 := if isSign c then rest else s in
        let neg := byte_eqb c "-" in
        if (len s1 =? 0)%nat then None
        else match digitsFrom 0 s1 with
             | None => None
             | Some un =>
                 if negb neg && (2 ^ 63 <=? un)%Z then None
                 else if neg && (2 ^ 63 <? un)%Z then None
                 else Some (if neg then (- un)%Z else un)
             end
    end.

Definition errorBody (message : gostring) : gostring :=
  str "{" ++ quote ++ str "error" ++ quote ++ str ": " ++ quote ++ message ++ quote ++ str "}".

Section WithJSON.
Context {U : Unicode}.

(** [json.MarshalIndent(result, "", "  ")] and the error of
    [json.NewEncoder(w).Encode(result)]: the encoder of the Go runtime and
    the state of the connection are parameters. *)
Variable MarshalIndent : ValidationResult -> gostring * option error.
Variable encodeError : ValidationResult -> option error.

(** [main], after [flag.Parse]. *)
Definition main (f : Flags) : Prog Outcome :=
  if help f then
    showHelp ;; Ret Returned
  else if server f then
    Ret (Serving (port f))
  else if gostring_eqb (email f) [] then
    Println (str "Error: Email address is required") ;;
    showHelp ;;
    Ret (Exited 1)
  else
    let cfg := {| Timeout := timeout f; Verbose := verbose f |} in
    let emailChecker := NewEmailChecker (Some cfg) in
    result <- ValidateEmail emailChecker (email f) ;;
    let finish := if negb (Valid result) then Ret (Exited 1) else Ret Returned in
    if jsonOutput f then
      let '(jsonResult, err) := MarshalIndent result in
      if negb (isNil err) then
        PrintfText (str "Error marshaling JSON: " ++ fmtError err ++ newline) ;;
        Ret (Exited 1)
      else Println jsonResult ;; finish
    else
      printHumanReadableResult result (email f) (verbose f) ;; finish.

(** [handleValidation]: what it does to the response writer, in order. *)
Definition handleValidation (r : Request) : Prog (list ResponseOp) :=
  let email := queryEmail r in
  if gostring_eqb email [] then
    Ret [HttpError (errorBody (str "Email parameter required")) 400]
  else
    let timeoutStr := queryTimeout r in
    let timeout := 10%Z in
    let timeout :=
      if negb (gostring_eqb timeoutStr []) then
        match Atoi timeoutStr with
        | Some t => t
        | None => timeout
        end
      else timeout in
    let verbose := gostring_eqb (queryVerbose r) (str "true") in
    let cfg := {| Timeout := timeout; Verbose := verbose |} in
    let emailChecker := NewEmailChecker (Some cfg) in
    result <- ValidateEmail emailChecker email ;;
    Ret ([HeaderSet (str "Content-Type") (str "application/json");
          HeaderSet (str "Access-Control-Allow-Origin") (str "*");
          Encode result]
         ++ (if negb (isNil (encodeError result))
             then [HttpError (errorBody (str "Failed to encode response")) 500]
             else [])).

End WithJSON.

(** [handleHealth] *)
Definition handleHealth : list ResponseOp :=
  [HeaderSet (str "Content-Type") (str "application/json");
   WriteHeader 200;
   EncodeMap [(str "status", str "healthy"); (str "service", str "secure-email-validator")]].

End Main.

(* ================================================================= *)
(** ** Integers in decimal, as a request may give them *)

Module Decimal.

Local Open Scope char_scope.

Definition isDigitByte (c : ascii) : bool := ("0" <=? c) && (c <=? "9").

(** The number that a text of digits writes. *)
Definition valueOf (ds : gostring) : option Z :=
  match ds with
  | [] => None
  | _ =>
      if forallb isDigitByte ds
      then Some (fold_left (fun n c => (10 * n + Z.of_N (N_of_ascii c - 48))%Z) ds 0%Z)
      else None
  end.

(** Digits, with one sign before them or none. *)
Definition decimalOf (s : gostring) : option Z :=
  match s with
  | c :: ds =>
      if byte_eqb c "-" then option_map Z.opp (valueOf ds)
      else if byte_eqb c "+" then valueOf ds
      else valueOf s
  | [] => None
  end.

Definition inInt64 (n : Z) : bool := (- 2 ^ 63 <=? n)%Z && (n <? 2 ^ 63)%Z.

(** The timeout a request asks for: the integer its parameter writes when
    it writes one that fits 64 bits, and 10 otherwise. *)
Definition requestTimeout (s : gostring) : Z :=
  match decimalOf s with
  | Some n => if inInt64 n then n else 10%Z
  | None => 10%Z
  end.

(** An encoder for running [main] on concrete inputs. *)
Definition stubMarshal (r : Checker.ValidationResult)
  : gostring * option Effects.error :=
  (if Checker.Valid r then str "{valid}" else str "{invalid}", None).

End Decimal.

(* ================================================================= *)
(** ** Reading a list of calls *)

Module Calls.

Import Effects.

Definition isPrintf (c : Call) : bool :=
  match c with call (Printf _) _ => true | _ => false end.
Definition isDial (c : Call) : bool :=
  match c with call (DialTimeout _ _ _) _ => true | _ => false end.

(** The connections that were opened, and those that were closed, in the
    order of the calls. *)
Definition openedConns (t : list Call) : list conn :=
  flat_map (fun c => match c with
                     | call (DialTimeout _ _ _) (inl k) => [k]
                     | _ => []
                     end) t.
Definition closedConns (t : list Call) : list conn :=
  flat_map (fun c => match c with call (Close k) _ => [k] | _ => [] end) t.

(** The SMTP sessions that were started, and those that were ended with
    [QUIT]. *)
Definition startedSessions (t : list Call) : list client :=
  flat_map (fun c => match c with
                     | call (NewClient _ _) (inl cl) => [cl]
                     | _ => []
                     end) t.
Definition quitSessions (t : list Call) : list client :=
  flat_map (fun c => match c with call (Quit cl) _ => [cl] | _ => [] end) t.

Definition count (P : Call -> bool) (t : list Call) : nat := List.length (filter P t).

(** A query for an extension that the server answered with yes. *)
Definition isExtensionListed (c : Call) : bool :=
  match c with
  | call e a =>
      match e in Event X return X -> bool with
      | Extension _ _ => fun a => fst a
      | _ => fun _ => false
      end a
  end.

(** The calls of a stage that makes the call [e] and, when it fails in
    verbose mode, prints one line: the call, or the call and the line. *)
Definition oneCall {A X : Type} (verbose : bool) (bad : A -> Prop) (e : Event X)
    (r : A * list Call) : Prop :=
  exists ans : X,
    snd r = [call e ans] \/
    (bad (fst r) /\ verbose = true /\
     exists text, snd r = [call e ans; call (Printf text) tt]).

(** What a call is about, for a pipeline that reports [domain] and
    [server]: lookups and [dig] ask about [domain], the SMTP calls go to
    port 25 of [server]. *)
Definition isAbout (domain server : gostring) (c : Call) : Prop :=
  match c with
  | call (LookupMX d) _ => d = domain
  | call (CommandOutput name args) _ =>
      name = str "dig" /\ args = [str "+dnssec"; str "+short"; str "SOA"; domain]
  | call (DialTimeout network address _) _ =>
      network = str "tcp" /\ address = server ++ str ":25"
  | call (NewClient _ host) _ => host = server
  | call (Extension _ ext) _ => ext = str "STARTTLS"
  | _ => True
  end.

End Calls.

(* ================================================================= *)
(** ** Bytes and strings *)

Section Bytes.

Import GoString.

Lemma byte_eqb_eq (a b : ascii) : byte_eqb a b = true <-> a = b.
Proof. apply Ascii.eqb_eq. Qed.

Lemma byte_eqb_refl (a : ascii) : byte_eqb a a = true.
Proof. apply byte_eqb_eq; reflexivity. Qed.

Lemma byte_eqb_neq (a b : ascii) : byte_eqb a b = false <-> a <> b.
Proof. apply Ascii.eqb_neq. Qed.

Lemma gostring_eqb_eq (s t : gostring) : gostring_eqb s t = true <-> s = t.
Proof.
  revert t; induction s as [|a s IH]; intros [|b t]; simpl; split; intro H;
    try reflexivity; try discriminate.
  - apply andb_true_iff in H as [Hab Hst].
    apply byte_eqb_eq in Hab; apply IH in Hst; congruence.
  - injection H as -> ->. rewrite byte_eqb_refl; simpl. apply IH; reflexivity.
Qed.

End Bytes.

(** Case analysis over the 256 bytes. *)
Ltac each_byte c :=
  destruct c as [[] [] [] [] [] [] [] []]; try reflexivity; try discriminate.

(* ================================================================= *)
(** ** The matcher decides the language *)

Section Matcher.

Import Regexp.

Lemma Lang_Eps_inv s : Lang Eps s -> s = [].
Proof. intro H; inversion H; reflexivity. Qed.

Lemma Lang_Class_inv rs s :
  Lang (Class rs) s -> exists c, s = [c] /\ inClass rs c = true.
Proof. intro H; inversion H; subst; eauto. Qed.

Lemma Lang_Cat_inv r1 r2 s :
  Lang (Cat r1 r2) s -> exists s1 s2, s = s1 ++ s2 /\ Lang r1 s1 /\ Lang r2 s2.
Proof. intro H; inversion H; subst; eauto. Qed.

Lemma Lang_Alt_inv r1 r2 s : Lang (Alt r1 r2) s -> Lang r1 s \/ Lang r2 s.
Proof. intro H; inversion H; subst; auto. Qed.

Lemma nullable_Lang r : nullable r = true <-> Lang r [].
Proof.
  induction r; simpl; split; intro H; try discriminate.
  - inversion H.
  - constructor.
  - reflexivity.
  - inversion H.
  - apply andb_true_iff in H as [H1 H2].
    change (@nil ascii) with (@nil ascii ++ []). constructor; [apply IHr1|apply IHr2]; assumption.
  - apply Lang_Cat_inv in H as (s1 & s2 & E & H1 & H2).
    symmetry in E; apply app_eq_nil in E as [-> ->].
    apply andb_true_iff; split; [apply IHr1|apply IHr2]; assumption.
  - apply orb_true_iff in H as [H|H]; [apply LAltL, IHr1|apply LAltR, IHr2]; assumption.
  - apply orb_true_iff. apply Lang_Alt_inv in H as [H|H]; [left; apply IHr1|right; apply IHr2]; assumption.
  - constructor.
  - reflexivity.
Qed.

(** A non-empty word of [r*] starts with a non-empty word of [r]. *)
Lemma Lang_Star_cons r c s :
  Lang (Star r) (c :: s) ->
  exists s1 s2, s = s1 ++ s2 /\ Lang r (c :: s1) /\ Lang (Star r) s2.
Proof.
  intro H. remember (Star r) as r' eqn:Er. remember (c :: s) as w eqn:Ew.
  revert c s Ew. induction H; intros c0 s0 Ew; try discriminate.
  injection Er as ->.
  destruct s1 as [|a s1].
  - simpl in Ew. apply IHLang2; auto.
  - simpl in Ew. injection Ew as -> <-. exists s1, s2; auto.
Qed.

Lemma deriv_Lang c r : forall s, Lang (deriv c r) s <-> Lang r (c :: s).
Proof.
  induction r; intro s; simpl.
  - split; intro H; inversion H.
  - split; intro H; inversion H.
  - destruct (inClass ranges c) eqn:E; split; intro H.
    + apply Lang_Eps_inv in H as ->. constructor; assumption.
    + inversion H; subst. constructor.
    + inversion H.
    + inversion H; subst. congruence.
  - assert (Hcat : Lang (Cat (deriv c r1) r2) s ->  Lang (Cat r1 r2) (c :: s)).
    { intro H. apply Lang_Cat_inv in H as (s1 & s2 & -> & H1 & H2).
      change (c :: s1 ++ s2) with ((c :: s1) ++ s2). constructor; [apply IHr1|]; assumption. }
    destruct (nullable r1) eqn:N; split; intro H.
    + apply Lang_Alt_inv in H as [H|H]; [auto|].
      change (c :: s) with ([] ++ c :: s). constructor; [apply nullable_Lang; assumption|apply IHr2; assumption].
    + apply Lang_Cat_inv in H as (s1 & s2 & E & H1 & H2).
      destruct s1 as [|a s1]; simpl in E.
      * subst s2. apply LAltR, IHr2; assumption.
      * injection E as <- ->. apply LAltL. constructor; [apply IHr1|]; assumption.
    + auto.
    + apply Lang_Cat_inv in H as (s1 & s2 & E & H1 & H2).
      destruct s1 as [|a s1]; simpl in E.
      * apply nullable_Lang in H1; congruence.
      * injection E as <- ->. constructor; [apply IHr1|]; assumption.
  - split; intro H; apply Lang_Alt_inv in H as [H|H];
      solve [apply LAltL, IHr1; assumption | apply LAltR, IHr2; assumption].
  - split; intro H.
    + apply Lang_Cat_inv in H as (s1 & s2 & -> & H1 & H2).
      change (c :: s1 ++ s2) with ((c :: s1) ++ s2). constructor; [apply IHr; assumption|assumption].
    + apply Lang_Star_cons in H as (s1 & s2 & -> & H1 & H2).
      constructor; [apply IHr; assumption|assumption].
Qed.

Lemma MatchString_Lang : forall s r, MatchString r s = true <-> Lang r s.
Proof.
  induction s as [|c s IH]; intro r; simpl.
  - apply nullable_Lang.
  - rewrite IH. apply deriv_Lang.
Qed.

(** Words of a class, of its repetitions and of its bounded repetitions. *)
Lemma Lang_Star_Class rs s : Lang (Star (Class rs)) s <-> forallb (inClass rs) s = true.
Proof.
  split.
  - intro H. remember (Star (Class rs)) as r eqn:Er.
    induction H; try discriminate; [reflexivity|].
    injection Er as ->. apply Lang_Class_inv in H as (c & -> & Hc).
    simpl. rewrite Hc. apply IHLang2; reflexivity.
  - induction s as [|c s IH]; simpl; intro H; [constructor|].
    apply andb_true_iff in H as [Hc Hs].
    change (c :: s) with ([c] ++ s). constructor; [constructor; assumption|auto].
Qed.

Lemma Lang_Plus_Class rs s :
  Lang (Plus (Class rs)) s <-> s <> [] /\ forallb (inClass rs) s = true.
Proof.
  unfold Plus; split.
  - intro H. apply Lang_Cat_inv in H as (s1 & s2 & -> & H1 & H2).
    apply Lang_Class_inv in H1 as (c & -> & Hc). apply Lang_Star_Class in H2.
    split; [discriminate|]. simpl. rewrite Hc; assumption.
  - intros [Hne H]. destruct s as [|c s]; [congruence|].
    simpl in H. apply andb_true_iff in H as [Hc Hs].
    change (c :: s) with ([c] ++ s). constructor; [constructor; assumption|].
    apply Lang_Star_Class; assumption.
Qed.

Lemma Lang_Upto_Class rs n : forall s,
  Lang (Upto n (Class rs)) s <-> (len s <= n)%nat /\ forallb (inClass rs) s = true.
Proof.
  induction n as [|n IH]; intro s; simpl; split.
  - intro H. apply Lang_Eps_inv in H as ->. auto.
  - intros [Hl _]. destruct s; [constructor|simpl in Hl; lia].
  - intro H. apply Lang_Alt_inv in H as [H|H].
    + apply Lang_Cat_inv in H as (s1 & s2 & -> & H1 & H2).
      apply Lang_Class_inv in H1 as (c & -> & Hc). apply IH in H2 as [Hl Hs].
      simpl. rewrite Hc. split; [lia|assumption].
    + apply Lang_Eps_inv in H as ->. simpl; split; [lia|reflexivity].
  - intros [Hl Hs]. destruct s as [|c s]; [apply LAltR; constructor|].
    simpl in Hl, Hs. apply andb_true_iff in Hs as [Hc Hs].
    apply LAltL. change (c :: s) with ([c] ++ s).
    constructor; [constructor; assumption|]. apply IH; split; [lia|assumption].
Qed.

End Matcher.

(* ================================================================= *)
(** ** [strings.Split] *)

Section SplitFacts.

Import GoString Spec.

Lemma Split_not_nil s sep : Split s sep <> [].
Proof.
  destruct s as [|c s]; simpl; [discriminate|].
  destruct (byte_eqb c sep); [discriminate|].
  destruct (Split s sep); discriminate.
Qed.

Lemma Split_lacks s sep : lacks sep s -> Split s sep = [s].
Proof.
  induction 1 as [|c s Hc _ IH]; simpl; [reflexivity|].
  apply byte_eqb_neq in Hc. rewrite Hc, IH. reflexivity.
Qed.

Lemma Split_app_sep l rest sep :
  lacks sep l -> Split (l ++ sep :: rest) sep = l :: Split rest sep.
Proof.
  induction 1 as [|c l Hc _ IH]; simpl.
  - rewrite byte_eqb_refl. reflexivity.
  - apply byte_eqb_neq in Hc. rewrite Hc, IH. reflexivity.
Qed.

Lemma Split_single_inv sep : forall s p, Split s sep = [p] -> s = p /\ lacks sep p.
Proof.
  induction s as [|c s IH]; simpl; intros p H.
  - injection H as <-. split; [reflexivity|constructor].
  - destruct (byte_eqb c sep) eqn:E.
    + injection H as _ H. exfalso. exact (Split_not_nil _ _ H).
    + destruct (Split s sep) as [|q qs] eqn:Es; [exfalso; exact (Split_not_nil _ _ Es)|].
      injection H as <- ->. destruct (IH q eq_refl) as [-> Hq].
      split; [reflexivity|]. constructor; [apply byte_eqb_neq; assumption|assumption].
Qed.

Lemma Split_cons_inv sep : forall s p q ps,
  Split s sep = p :: q :: ps ->
  exists rest, s = p ++ sep :: rest /\ lacks sep p /\ Split rest sep = q :: ps.
Proof.
  induction s as [|c s IH]; simpl; intros p q ps H; [discriminate|].
  destruct (byte_eqb c sep) eqn:E.
  - injection H as <- H. apply byte_eqb_eq in E as ->.
    exists s. repeat split; [constructor|assumption].
  - destruct (Split s sep) as [|p' ps'] eqn:Es; [discriminate|].
    injection H as <- ->.
    destruct (IH p' q ps eq_refl) as (rest & -> & Hp & Hr).
    exists rest. repeat split; [|assumption].
    constructor; [apply byte_eqb_neq; assumption|assumption].
Qed.

(** Every byte of [s] is the separator or lies in a piece. *)
Lemma Split_bytes (P : ascii -> bool) sep : forall s,
  forallb (forallb P) (Split s sep) = true ->
  Forall (fun c => c = sep \/ P c = true) s.
Proof.
  induction s as [|c s IH]; simpl; intro H; [constructor|].
  destruct (byte_eqb c sep) eqn:E.
  - apply byte_eqb_eq in E. simpl in H. constructor; [left; assumption|apply IH; assumption].
  - destruct (Split s sep) as [|p ps] eqn:Es; [exfalso; exact (Split_not_nil _ _ Es)|].
    simpl in H. apply andb_true_iff in H as [Hp Hps].
    apply andb_true_iff in Hp as [Hc Hp].
    constructor; [right; assumption|]. apply IH. simpl. rewrite Hp, Hps. reflexivity.
Qed.

Lemma Split_length_two s sep :
  List.length (Split s sep) = 2%nat ->
  exists p q, Split s sep = [p; q] /\ s = p ++ sep :: q /\ lacks sep p /\ lacks sep q.
Proof.
  intro H. destruct (Split s sep) as [|p [|q [|r rs]]] eqn:E; try discriminate.
  apply Split_cons_inv in E as (rest & -> & Hp & Hr).
  apply Split_single_inv in Hr as [-> Hq].
  exists p, q. auto.
Qed.

End SplitFacts.

(* ================================================================= *)
(** ** The pattern of [isValidEmailFormat] and the structure it describes *)

Section Format.

Import GoString Regexp Checker Spec.
Local Open Scope char_scope.

Lemma alnum_class c :
  inClass [("a", "z"); ("A", "Z"); ("0", "9")] c = isAlnum c.
Proof. each_byte c. Qed.

Lemma alnumHyphen_class c :
  inClass [("a", "z"); ("A", "Z"); ("0", "9"); one "-"] c = isLabelChar c.
Proof. each_byte c. Qed.

Lemma local_class c :
  inClass [("a", "z"); ("A", "Z"); ("0", "9"); one "."; one "!"; one "#";
           one "$"; one "%"; one "&"; one "'"; one "*"; one "+"; one "/";
           one "="; one "?"; one "^"; one "_"; one "`"; one "{"; one "|";
           one "}"; one "~"; one "-"] c = isLocalChar c.
Proof. each_byte c. Qed.

Lemma dot_class c : inClass [one "."] c = byte_eqb c ".".
Proof. each_byte c. Qed.

Lemma at_class c : inClass [one "@"] c = byte_eqb c "@".
Proof. each_byte c. Qed.

Lemma forallb_ext_eq {A} (f g : A -> bool) l :
  (forall x, f x = g x) -> forallb f l = forallb g l.
Proof. intro H. induction l; simpl; [reflexivity|]. rewrite H, IHl; reflexivity. Qed.

Lemma isAlnum_label c : isAlnum c = true -> isLabelChar c = true.
Proof. unfold isLabelChar. intros ->. reflexivity. Qed.

Lemma last_app_single {A} (l : list A) (b d : A) : last (l ++ [b]) d = b.
Proof. apply last_last. Qed.

Lemma Lang_label l : Lang labelRegex l <-> isLabel l = true.
Proof.
  unfold labelRegex, alnum, alnumHyphen, Opt, isLabel. split.
  - intro H. apply Lang_Cat_inv in H as (s1 & s2 & -> & H1 & H2).
    apply Lang_Class_inv in H1 as (a & -> & Ha). rewrite alnum_class in Ha.
    apply Lang_Alt_inv in H2 as [H2|H2].
    + apply Lang_Cat_inv in H2 as (m & e & -> & Hm & He).
      apply Lang_Class_inv in He as (b & -> & Hb). rewrite alnum_class in Hb.
      apply Lang_Upto_Class in Hm as [Hl Hm].
      rewrite (forallb_ext_eq _ _ _ alnumHyphen_class) in Hm.
      change ([a] ++ m ++ [b]) with (a :: (m ++ [b])).
      rewrite (last_app_single (a :: m) b "-" : last (a :: m ++ [b]) "-" = b).
      simpl hd. rewrite Ha, Hb. cbn [forallb]. rewrite forallb_app, Hm. simpl.
      rewrite (isAlnum_label _ Ha), (isAlnum_label _ Hb). simpl.
      rewrite !andb_true_r. apply Nat.leb_le. rewrite length_app; simpl. lia.
    + apply Lang_Eps_inv in H2 as ->. simpl. rewrite Ha, (isAlnum_label _ Ha). reflexivity.
  - intro H. repeat (apply andb_true_iff in H as [H ?]).
    destruct l as [|a l]; [discriminate|]. simpl hd in *.
    change (a :: l) with ([a] ++ l). constructor.
    + constructor. rewrite alnum_class; assumption.
    + destruct l as [|x l']; [apply LAltR; constructor|]. apply LAltL.
      destruct (exists_last (l := x :: l') ltac:(discriminate)) as (m & b & E).
      rewrite E in *. clear E x l'.
      rewrite (last_app_single (a :: m) b "-" : last (a :: m ++ [b]) "-" = b) in *.
      apply Nat.leb_le in H3. simpl in H3. rewrite length_app in H3. simpl in H3.
      cbn [forallb] in H2. apply andb_true_iff in H2 as [_ H2].
      rewrite forallb_app in H2. apply andb_true_iff in H2 as [H2 _].
      constructor.
      * apply Lang_Upto_Class. split; [lia|].
        rewrite (forallb_ext_eq _ _ _ alnumHyphen_class). assumption.
      * constructor. rewrite alnum_class; assumption.
Qed.

Lemma isLabelChar_not_dot c : isLabelChar c = true -> c <> ".".
Proof. intros H ->. discriminate. Qed.

Lemma isLocalChar_not_at c : isLocalChar c = true -> c <> "@".
Proof. intros H ->. discriminate. Qed.

Lemma isLabel_chars l : isLabel l = true -> forallb isLabelChar l = true.
Proof. unfold isLabel. intro H. repeat (apply andb_true_iff in H as [H ?]). assumption. Qed.

Lemma forallb_lacks (P : ascii -> bool) sep s :
  (forall c, P c = true -> c <> sep) -> forallb P s = true -> lacks sep s.
Proof.
  intros HP H. apply Forall_forall. intros c Hc. apply HP.
  rewrite forallb_forall in H. auto.
Qed.

Lemma isLabel_lacks_dot l : isLabel l = true -> lacks "." l.
Proof. intro H. eapply forallb_lacks; [apply isLabelChar_not_dot|apply isLabel_chars, H]. Qed.

Lemma tail_labels t :
  Lang (Star (Cat (Class [one "."]) labelRegex)) t ->
  forall l, isLabel l = true -> forallb isLabel (Split (l ++ t) ".") = true.
Proof.
  intro H. remember (Star (Cat (Class [one "."]) labelRegex)) as r eqn:Er.
  induction H; try discriminate; intros l Hl.
  - rewrite app_nil_r, Split_lacks by (apply isLabel_lacks_dot; assumption).
    simpl. rewrite Hl. reflexivity.
  - injection Er as ->.
    apply Lang_Cat_inv in H as (d & l1 & -> & Hd & Hl1).
    apply Lang_Class_inv in Hd as (c & -> & Hc). rewrite dot_class in Hc.
    apply byte_eqb_eq in Hc as ->. apply Lang_label in Hl1.
    change (l ++ (["."] ++ l1) ++ s2) with (l ++ "." :: (l1 ++ s2)).
    rewrite Split_app_sep by (apply isLabel_lacks_dot; assumption).
    simpl. rewrite Hl. apply IHLang2; auto.
Qed.

Lemma labels_tail : forall ps d,
  Split d "." = ps -> forallb isLabel ps = true ->
  exists l t, d = l ++ t /\ Lang labelRegex l /\
              Lang (Star (Cat (Class [one "."]) labelRegex)) t.
Proof.
  induction ps as [|p ps IH]; intros d E H.
  - exfalso; exact (Split_not_nil _ _ E).
  - simpl in H. apply andb_true_iff in H as [Hp Hps].
    destruct ps as [|q ps'].
    + apply Split_single_inv in E as [-> _].
      exists p, []. rewrite app_nil_r. repeat split; [apply Lang_label; assumption|constructor].
    + apply Split_cons_inv in E as (rest & -> & _ & Er).
      destruct (IH rest Er Hps) as (l & t & -> & Hl & Ht).
      exists p, ("." :: l ++ t). repeat split; [apply Lang_label; assumption|].
      change ("." :: l ++ t) with ((["."] ++ l) ++ t). constructor; [|assumption].
      constructor; [|assumption]. constructor. reflexivity.
Qed.

Lemma Lang_domain d : Lang domainRegex d <-> forallb isLabel (Split d ".") = true.
Proof.
  unfold domainRegex. split.
  - intro H. apply Lang_Cat_inv in H as (l & t & -> & Hl & Ht).
    apply tail_labels; [assumption|apply Lang_label; assumption].
  - intro H. destruct (labels_tail _ d eq_refl H) as (l & t & -> & Hl & Ht).
    constructor; assumption.
Qed.

Lemma labels_domain_chars d :
  forallb isLabel (Split d ".") = true -> forallb isDomainChar d = true.
Proof.
  intro H. apply forallb_forall. intros c Hc.
  assert (Hp : forallb (forallb isLabelChar) (Split d ".") = true).
  { rewrite forallb_forall in *. intros l Hl. apply isLabel_chars; auto. }
  apply Split_bytes in Hp. rewrite Forall_forall in Hp.
  unfold isDomainChar. destruct (Hp c Hc) as [-> | ->]; [reflexivity|reflexivity].
Qed.

Lemma labels_nonempty d : forallb isLabel (Split d ".") = true -> d <> [].
Proof. intros H ->. discriminate. Qed.

Lemma isDomainChar_not_at c : isDomainChar c = true -> c <> "@".
Proof. intros H ->. discriminate. Qed.

(** The shape of an accepted address. *)
Lemma Lang_email s :
  Lang emailRegex s <->
  exists local domain,
    s = local ++ "@" :: domain /\ local <> [] /\
    forallb isLocalChar local = true /\
    forallb isLabel (Split domain ".") = true.
Proof.
  unfold emailRegex, localClass. fold domainRegex. split.
  - intro H. apply Lang_Cat_inv in H as (loc & rest & -> & Hloc & Hrest).
    apply Lang_Cat_inv in Hrest as (a & d & -> & Ha & Hd).
    apply Lang_Class_inv in Ha as (c & -> & Hc). rewrite at_class in Hc.
    apply byte_eqb_eq in Hc as ->.
    apply Lang_Plus_Class in Hloc as [Hne Hloc].
    rewrite (forallb_ext_eq _ _ _ local_class) in Hloc.
    apply Lang_domain in Hd. exists loc, d. auto.
  - intros (loc & d & -> & Hne & Hloc & Hd).
    constructor.
    + apply Lang_Plus_Class. split; [assumption|].
      rewrite (forallb_ext_eq _ _ _ local_class). assumption.
    + change ("@" :: d) with (["@"] ++ d). constructor.
      * constructor. reflexivity.
      * apply Lang_domain; assumption.
Qed.

Lemma wellFormed_shape s :
  wellFormed s = true <->
  exists local domain,
    s = local ++ "@" :: domain /\ local <> [] /\
    forallb isLocalChar local = true /\
    forallb isLabel (Split domain ".") = true.
Proof.
  unfold wellFormed, piecesOf. split.
  - intro H. destruct (Split s "@") as [|p [|q [|r rs]]] eqn:E; try discriminate.
    assert (E2 : List.length (Split s "@") = 2%nat) by (rewrite E; reflexivity).
    apply Split_length_two in E2 as (p' & q' & E' & -> & _ & _).
    rewrite E in E'. injection E' as <- <-.
    repeat (apply andb_true_iff in H as [H ?]).
    exists p, q. repeat split; try assumption.
    intros ->. discriminate.
  - intros (loc & d & -> & Hne & Hloc & Hd).
    rewrite Split_app_sep by (eapply forallb_lacks; [apply isLocalChar_not_at|assumption]).
    rewrite Split_lacks.
    + rewrite Hloc, Hd. destruct loc; [congruence|reflexivity].
    + eapply forallb_lacks; [apply isDomainChar_not_at|apply labels_domain_chars; assumption].
Qed.

Lemma MatchString_wellFormed s : MatchString emailRegex s = wellFormed s.
Proof.
  apply eq_true_iff_eq. rewrite MatchString_Lang, Lang_email, wellFormed_shape. reflexivity.
Qed.

Lemma isValidEmailFormat_shape s :
  isValidEmailFormat s = true ->
  exists local domain,
    s = local ++ "@" :: domain /\ local <> [] /\
    forallb isLocalChar local = true /\ domain <> [] /\
    forallb isDomainChar domain = true.
Proof.
  unfold isValidEmailFormat. intro H. apply andb_true_iff in H as [H _].
  apply MatchString_Lang, Lang_email in H as (loc & d & -> & Hne & Hloc & Hd).
  exists loc, d. repeat split; auto using labels_nonempty, labels_domain_chars.
Qed.

End Format.

(* ================================================================= *)
(** ** Splitting, counting and cutting at a byte *)

Section Cutting.

Import GoString Spec.

Lemma countByte_cons c a s :
  countByte c (a :: s) = ((if byte_eqb a c then 1 else 0) + countByte c s)%nat.
Proof.
  unfold countByte; simpl. destruct (ascii_dec a c) as [->|N].
  - rewrite byte_eqb_refl. reflexivity.
  - apply byte_eqb_neq in N. rewrite N. reflexivity.
Qed.

Lemma Split_length s sep : List.length (Split s sep) = S (countByte sep s).
Proof.
  induction s as [|a s IH]; [reflexivity|].
  rewrite countByte_cons. simpl. destruct (byte_eqb a sep); simpl.
  - rewrite IH. reflexivity.
  - destruct (Split s sep); simpl in *; lia.
Qed.

Lemma before_app c p q : lacks c p -> before c (p ++ c :: q) = p.
Proof.
  induction 1 as [|a p Ha _ IH]; simpl.
  - rewrite byte_eqb_refl. reflexivity.
  - apply byte_eqb_neq in Ha. rewrite Ha, IH. reflexivity.
Qed.

Lemma after_app c p q : lacks c p -> after c (p ++ c :: q) = q.
Proof.
  induction 1 as [|a p Ha _ IH]; simpl.
  - rewrite byte_eqb_refl. reflexivity.
  - apply byte_eqb_neq in Ha. rewrite Ha, IH. reflexivity.
Qed.

Lemma before_lacks c s : lacks c s -> before c s = s.
Proof.
  induction 1 as [|a p Ha _ IH]; simpl; [reflexivity|].
  apply byte_eqb_neq in Ha. rewrite Ha, IH. reflexivity.
Qed.

Lemma before_Forall (P : ascii -> Prop) c s : Forall P s -> Forall P (before c s).
Proof.
  induction 1 as [|a s Ha _ IH]; simpl; [constructor|].
  destruct (byte_eqb a c); constructor; assumption.
Qed.

Lemma before_lacks_self c s : lacks c (before c s).
Proof.
  induction s as [|a s IH]; simpl; [constructor|].
  destruct (byte_eqb a c) eqn:E; constructor; [apply byte_eqb_neq|]; assumption.
Qed.

Lemma filter_Forall {A} (P : A -> Prop) f (s : list A) : Forall P s -> Forall P (filter f s).
Proof.
  induction 1 as [|a s Ha _ IH]; simpl; [constructor|].
  destruct (f a); [constructor|]; assumption.
Qed.

Lemma filter_out_lacks c s : lacks c (filter (fun x => negb (byte_eqb x c)) s).
Proof.
  induction s as [|a s IH]; simpl; [constructor|].
  destruct (byte_eqb a c) eqn:E; simpl; [assumption|].
  constructor; [apply byte_eqb_neq|]; assumption.
Qed.

Lemma filter_out_id c s : lacks c s -> filter (fun x => negb (byte_eqb x c)) s = s.
Proof.
  induction 1 as [|a s Ha _ IH]; simpl; [reflexivity|].
  apply byte_eqb_neq in Ha. rewrite Ha; simpl. rewrite IH. reflexivity.
Qed.

Lemma countByte_lacks c s : lacks c s -> countByte c s = 0%nat.
Proof.
  induction 1 as [|a s Ha _ IH]; [reflexivity|].
  rewrite countByte_cons, IH. apply byte_eqb_neq in Ha. rewrite Ha. reflexivity.
Qed.

Lemma countByte_app c s t : countByte c (s ++ t) = (countByte c s + countByte c t)%nat.
Proof. apply count_occ_app. Qed.

Lemma countByte_one c p q :
  lacks c p -> lacks c q -> countByte c (p ++ c :: q) = 1%nat.
Proof.
  intros Hp Hq. rewrite countByte_app, countByte_cons, byte_eqb_refl.
  rewrite !countByte_lacks by assumption. reflexivity.
Qed.

(** A string with one [c] is what precedes it, [c], and what follows it. *)
Lemma countByte_one_inv c s :
  countByte c s = 1%nat ->
  s = before c s ++ c :: after c s /\ lacks c (before c s) /\ lacks c (after c s).
Proof.
  intro H.
  assert (L : List.length (Split s c) = 2%nat) by (rewrite Split_length, H; reflexivity).
  apply Split_length_two in L as (p & q & _ & -> & Hp & Hq).
  rewrite before_app, after_app by assumption. auto.
Qed.

Lemma ReplaceAll_delete s c :
  ReplaceAll s c [] = filter (fun x => negb (byte_eqb x c)) s.
Proof.
  unfold ReplaceAll. induction s as [|a s IH]; simpl; [reflexivity|].
  destruct (byte_eqb a c); simpl; rewrite IH; reflexivity.
Qed.

Lemma Index_before s c :
  (Index s c = (-1)%Z /\ before c s = s) \/
  (Index s c = Z.of_nat (len (before c s)) /\
   firstn (len (before c s)) s = before c s).
Proof.
  induction s as [|a s IH]; simpl; [left; auto|].
  destruct (byte_eqb a c); [right; auto|].
  destruct IH as [[-> E]|[E1 E2]].
  - left. simpl. rewrite E. auto.
  - right. rewrite E1.
    destruct (Z.of_nat (len (before c s)) =? -1)%Z eqn:N; [apply Z.eqb_eq in N; lia|].
    simpl len. rewrite Nat2Z.inj_succ. split; [lia|]. simpl. rewrite E2. reflexivity.
Qed.

Lemma slice_at_Index s c :
  (if negb (Index s c =? -1)%Z then sliceTo s (Index s c) else s) = before c s.
Proof.
  unfold sliceTo. destruct (Index_before s c) as [[-> E]|[-> E]].
  - simpl. symmetry; assumption.
  - destruct (Z.of_nat (len (before c s)) =? -1)%Z eqn:N; [apply Z.eqb_eq in N; lia|].
    simpl. rewrite Nat2Z.id. assumption.
Qed.

End Cutting.

(* ================================================================= *)
(** ** [normalizeEmail] and [extractDomain] against their descriptions *)

Section Normalisation.

Import GoString Checker Spec.
Context {U : Unicode}.
Local Open Scope char_scope.

Lemma Split_one_at e :
  countByte "@" e = 1%nat -> Split e "@" = [before "@" e; after "@" e].
Proof.
  intro C. destruct (countByte_one_inv _ _ C) as (E & Hp & Hq).
  rewrite E at 1. rewrite Split_app_sep, Split_lacks by assumption. reflexivity.
Qed.

Lemma normalizeEmail_normalizeSpec a : normalizeEmail a = normalizeSpec a.
Proof.
  unfold normalizeEmail, normalizeSpec, foldGmail. fold (canonical a).
  set (e := canonical a). rewrite Split_length.
  change (S (countByte "@" e) =? 2)%nat with (countByte "@" e =? 1)%nat.
  destruct (countByte "@" e =? 1)%nat eqn:C; [|reflexivity].
  apply Nat.eqb_eq in C. rewrite (Split_one_at _ C).
  cbn [negb nth andb]. fold (isGmailDomain (after "@" e)).
  destruct (isGmailDomain (after "@" e)).
  - rewrite ReplaceAll_delete, slice_at_Index. reflexivity.
  - symmetry. apply (countByte_one_inv _ _ C).
Qed.

Lemma extractDomain_extractDomainSpec email :
  extractDomain email = extractDomainSpec email.
Proof.
  unfold extractDomain, extractDomainSpec. rewrite Split_length.
  change (S (countByte "@" email) =? 2)%nat with (countByte "@" email =? 1)%nat.
  destruct (countByte "@" email =? 1)%nat eqn:C; [|reflexivity].
  apply Nat.eqb_eq in C. rewrite (Split_one_at _ C). reflexivity.
Qed.

(** *** Plain text: ASCII without white space *)

Lemma skipSpace_plain s : isPlain s = true -> skipSpace s = (false, s).
Proof.
  destruct s as [|c s]; [reflexivity|]. simpl. intro H.
  apply andb_true_iff in H as [H _]. unfold isPlainByte in H.
  apply andb_true_iff in H as [H1 H2].
  apply negb_true_iff in H1, H2. rewrite H1, H2. reflexivity.
Qed.

Lemma isPlain_rev s : isPlain s = true -> isPlain (rev s) = true.
Proof.
  unfold isPlain. rewrite !forallb_forall. intros H c Hc. apply H, in_rev, Hc.
Qed.

Lemma TrimSpace_plain s : isPlain s = true -> TrimSpace s = s.
Proof.
  intro H. unfold TrimSpace.
  rewrite (skipSpace_plain _ H), (skipSpace_plain _ (isPlain_rev _ H)).
  apply rev_involutive.
Qed.

Lemma isPlain_isASCII s : isPlain s = true -> isASCII s = true.
Proof.
  unfold isPlain, isASCII. rewrite !forallb_forall. intros H c Hc.
  specialize (H c Hc). unfold isPlainByte in H. apply andb_true_iff in H as [H _]. exact H.
Qed.

Lemma map_lowerByte_id s : existsb isUpperByte s = false -> map lowerByte s = s.
Proof.
  induction s as [|c s IH]; simpl; [reflexivity|]. intro H.
  apply orb_false_iff in H as [Hc Hs]. unfold lowerByte at 1. rewrite Hc, IH by assumption.
  reflexivity.
Qed.

Lemma ToLower_ascii s : isASCII s = true -> ToLower s = map lowerByte s.
Proof.
  intro H. unfold ToLower. rewrite H.
  destruct (existsb isUpperByte s) eqn:E; simpl; [reflexivity|].
  symmetry. apply map_lowerByte_id, E.
Qed.

Lemma canonical_plain s : isPlain s = true -> canonical s = map lowerByte s.
Proof.
  intro H. unfold canonical. rewrite (TrimSpace_plain _ H).
  apply ToLower_ascii, isPlain_isASCII, H.
Qed.

End Normalisation.

(* ================================================================= *)
(** ** Gmail folding: fixed points, and what it keeps *)

Section Folding.

Import GoString Checker Spec.
Local Open Scope char_scope.

Lemma lacks_literal_gmail : lacks "@" (str "gmail.com").
Proof. repeat constructor; discriminate. Qed.

Lemma gmailLocal_lacks c p : lacks c p -> lacks c (gmailLocal p).
Proof. intro H. unfold gmailLocal. apply before_Forall, filter_Forall, H. Qed.

Lemma gmailLocal_fixed p : gmailLocal (gmailLocal p) = gmailLocal p.
Proof.
  unfold gmailLocal at 1. rewrite filter_out_id.
  - apply before_lacks. unfold gmailLocal. apply before_lacks_self.
  - unfold gmailLocal. apply before_Forall, filter_out_lacks.
Qed.

(** An address cut at its only [@]. *)
Lemma cut_at p q :
  lacks "@" p -> lacks "@" q ->
  countByte "@" (p ++ "@" :: q) = 1%nat /\
  before "@" (p ++ "@" :: q) = p /\ after "@" (p ++ "@" :: q) = q.
Proof.
  intros Hp Hq. rewrite countByte_one, before_app, after_app by assumption. auto.
Qed.

Lemma foldGmail_cut p q :
  lacks "@" p -> lacks "@" q ->
  foldGmail (p ++ "@" :: q) =
  if isGmailDomain q then gmailLocal p ++ "@" :: str "gmail.com" else p ++ "@" :: q.
Proof.
  intros Hp Hq. unfold foldGmail.
  destruct (cut_at _ _ Hp Hq) as (-> & -> & ->). reflexivity.
Qed.

Lemma foldGmail_cases e :
  foldGmail e = e \/
  exists p q, e = p ++ "@" :: q /\ lacks "@" p /\ lacks "@" q /\
              isGmailDomain q = true /\
              foldGmail e = gmailLocal p ++ "@" :: str "gmail.com".
Proof.
  unfold foldGmail.
  destruct (countByte "@" e =? 1)%nat eqn:C; [|left; reflexivity].
  destruct (isGmailDomain (after "@" e)) eqn:G; [|left; reflexivity].
  right. apply Nat.eqb_eq in C. destruct (countByte_one_inv _ _ C) as (E & Hp & Hq).
  exists (before "@" e), (after "@" e). auto.
Qed.

Lemma foldGmail_idempotent e : foldGmail (foldGmail e) = foldGmail e.
Proof.
  destruct (foldGmail_cases e) as [E|(p & q & -> & Hp & Hq & G & E)].
  - rewrite E. assumption.
  - rewrite E. rewrite foldGmail_cut by auto using gmailLocal_lacks, lacks_literal_gmail.
    change (isGmailDomain (str "gmail.com")) with true. cbv iota.
    rewrite gmailLocal_fixed. reflexivity.
Qed.

(** *** Folding keeps plain lower-case text plain and lower-case *)

Lemma isPlainLower_plain s : forallb isPlainLower s = true -> isPlain s = true.
Proof.
  unfold isPlain. rewrite !forallb_forall. intros H c Hc. specialize (H c Hc).
  unfold isPlainLower in H. apply andb_true_iff in H as [H _]. exact H.
Qed.

Lemma isPlainLower_no_upper s : forallb isPlainLower s = true -> existsb isUpperByte s = false.
Proof.
  induction s as [|c s IH]; simpl; [reflexivity|]. intro H.
  apply andb_true_iff in H as [Hc Hs]. unfold isPlainLower in Hc.
  apply andb_true_iff in Hc as [_ Hc]. apply negb_true_iff in Hc.
  rewrite Hc, IH by assumption. reflexivity.
Qed.

Lemma lowerByte_plainLower c : isPlainByte c = true -> isPlainLower (lowerByte c) = true.
Proof. each_byte c. Qed.

Lemma map_lowerByte_plainLower s :
  isPlain s = true -> forallb isPlainLower (map lowerByte s) = true.
Proof.
  unfold isPlain. rewrite !forallb_forall. intros H c Hc.
  apply in_map_iff in Hc as (a & <- & Ha). apply lowerByte_plainLower, H, Ha.
Qed.

Lemma forallb_Forall_iff {A} (f : A -> bool) l :
  forallb f l = true <-> Forall (fun x => f x = true) l.
Proof. rewrite forallb_forall, Forall_forall. reflexivity. Qed.

Lemma gmailLocal_plainLower p :
  forallb isPlainLower p = true -> forallb isPlainLower (gmailLocal p) = true.
Proof.
  rewrite !forallb_Forall_iff. intro H. unfold gmailLocal.
  apply before_Forall, filter_Forall, H.
Qed.

Lemma foldGmail_plainLower e :
  forallb isPlainLower e = true -> forallb isPlainLower (foldGmail e) = true.
Proof.
  intro H. destruct (foldGmail_cases e) as [E|(p & q & -> & _ & _ & _ & E)]; rewrite E.
  - assumption.
  - rewrite forallb_app in *. apply andb_true_iff in H as [Hp _].
    rewrite (gmailLocal_plainLower _ Hp). reflexivity.
Qed.

Context {U : Unicode}.

Lemma canonical_fixed s : forallb isPlainLower s = true -> canonical s = s.
Proof.
  intro H. rewrite canonical_plain by (apply isPlainLower_plain, H).
  apply map_lowerByte_id, isPlainLower_no_upper, H.
Qed.

Lemma normalizeEmail_idempotent_plain a :
  isPlain a = true -> normalizeEmail (normalizeEmail a) = normalizeEmail a.
Proof.
  intro H. rewrite !normalizeEmail_normalizeSpec. unfold normalizeSpec.
  rewrite (canonical_plain _ H).
  pose proof (foldGmail_plainLower _ (map_lowerByte_plainLower _ H)) as Hf.
  rewrite (canonical_fixed _ Hf). apply foldGmail_idempotent.
Qed.

(** *** Accepted addresses are plain *)

Lemma isLocalChar_plain c : isLocalChar c = true -> isPlainByte c = true.
Proof. each_byte c. Qed.

Lemma isDomainChar_plain c : isDomainChar c = true -> isPlainByte c = true.
Proof. each_byte c. Qed.

Lemma isLocalChar_lower_not_at c : isLocalChar c = true -> lowerByte c <> "@".
Proof. each_byte c. Qed.

Lemma isDomainChar_lower_not_at c : isDomainChar c = true -> lowerByte c <> "@".
Proof. each_byte c. Qed.

Lemma forallb_impl {A} (f g : A -> bool) l :
  (forall x, f x = true -> g x = true) -> forallb f l = true -> forallb g l = true.
Proof. rewrite !forallb_forall. auto. Qed.

Lemma isValidEmailFormat_plain s : isValidEmailFormat s = true -> isPlain s = true.
Proof.
  intro H. apply isValidEmailFormat_shape in H as (loc & d & -> & _ & Hloc & _ & Hd).
  unfold isPlain. rewrite forallb_app. cbn [forallb].
  rewrite (forallb_impl _ _ _ isLocalChar_plain Hloc).
  rewrite (forallb_impl _ _ _ isDomainChar_plain Hd). reflexivity.
Qed.

Lemma map_lower_lacks_at (P : ascii -> bool) s :
  (forall c, P c = true -> lowerByte c <> "@") ->
  forallb P s = true -> lacks "@" (map lowerByte s).
Proof.
  intros HP H. apply Forall_forall. intros c Hc.
  apply in_map_iff in Hc as (a & <- & Ha). apply HP.
  rewrite forallb_forall in H. auto.
Qed.

(** The normalised form of an accepted address: one [@], and after it a
    non-empty plain lower-case domain. *)
Lemma normalizeEmail_accepted s :
  isValidEmailFormat s = true ->
  exists p q, normalizeEmail s = p ++ "@" :: q /\ lacks "@" p /\ lacks "@" q /\
              q <> [] /\ forallb isPlainLower q = true.
Proof.
  intro H. pose proof (isValidEmailFormat_plain _ H) as Hplain.
  rewrite normalizeEmail_normalizeSpec. unfold normalizeSpec.
  rewrite (canonical_plain _ Hplain).
  apply isValidEmailFormat_shape in H as (loc & d & -> & _ & Hloc & Hne & Hd).
  rewrite map_app. cbn [map]. change (lowerByte "@") with "@".
  pose proof (map_lower_lacks_at _ _ isLocalChar_lower_not_at Hloc) as Lp.
  pose proof (map_lower_lacks_at _ _ isDomainChar_lower_not_at Hd) as Lq.
  rewrite (foldGmail_cut _ _ Lp Lq).
  destruct (isGmailDomain (map lowerByte d)).
  - exists (gmailLocal (map lowerByte loc)), (str "gmail.com").
    repeat split; auto using gmailLocal_lacks, lacks_literal_gmail. discriminate.
  - exists (map lowerByte loc), (map lowerByte d). repeat split; auto.
    + destruct d; [congruence|discriminate].
    + apply map_lowerByte_plainLower, (forallb_impl _ _ _ isDomainChar_plain Hd).
Qed.

End Folding.

(* ================================================================= *)
(** ** Running programs *)

Section Running.

Import Effects.

Lemma run_bind {A B} (o : Oracle) (p : Prog A) (f : A -> Prog B) : forall h,
  run o h (bind p f) =
  (fst (run o (h ++ snd (run o h p)) (f (fst (run o h p)))),
   snd (run o h p) ++ snd (run o (h ++ snd (run o h p)) (f (fst (run o h p))))).
Proof.
  induction p as [a|X e k IH]; intro h; simpl.
  - rewrite app_nil_r. destruct (run o h (f a)); reflexivity.
  - rewrite IH. destruct (run o (h ++ [call e (o h X e)]) (k (o h X e))) as [a t].
    simpl. rewrite <- app_assoc. reflexivity.
Qed.

Lemma run_Ret {A} (o : Oracle) h (a : A) : run o h (Ret a) = (a, []).
Proof. reflexivity. Qed.

End Running.

(* ================================================================= *)
(** ** The pipeline, stage by stage *)

Section PipelineFacts.

Import GoString Effects Checker Spec.
Context {U : Unicode}.
Variable ec : EmailChecker.
Variable o : Oracle.

(** Reading and writing the fields of a result. *)
Ltac fields :=
  cbn [Valid Reason NormalizedEmail Domain HasMXRecord HasDNSSEC PrimaryMXServer
       SupportsSTARTTLS setValid setReason setNormalizedEmail setDomain
       setHasMXRecord setHasDNSSEC setPrimaryMXServer setSupportsSTARTTLS
       zeroResult formatOK mxOK dnssecOK primaryMX starttlsOK fst snd].

(** A branch that returns. *)
Ltac halted :=
  try (rewrite run_Ret; fields; rewrite ?app_nil_r; reflexivity).

Lemma nonEmpty_eqb s : gostring_eqb s [] = negb (nonEmpty s).
Proof. unfold nonEmpty. rewrite negb_involutive. reflexivity. Qed.

(** [ValidateEmail] returns what the halting table says, after the calls it
    says. *)
Lemma ValidateEmail_halting h email :
  run o h (ValidateEmail ec email) = halting ec o h email.
Proof.
  unfold ValidateEmail, halting, stages, runSTARTTLS, runPrimary, runDNSSEC, runMX.
  fields.
  destruct (isValidEmailFormat email); cbn [negb]; [|reflexivity].
  fold (probedDomain email).
  rewrite run_bind. fields.
  set (r1 := run o h (hasMXRecord ec (probedDomain email))).
  destruct (fst r1); cbn [negb]; halted.
  rewrite run_bind. fields.
  set (r2 := run o (h ++ snd r1) (hasDNSSEC ec (probedDomain email))).
  destruct (fst r2); cbn [negb]; halted.
  rewrite run_bind. fields. rewrite <- !app_assoc.
  set (r3 := run o (h ++ snd r1 ++ snd r2) (getPrimaryMXServer ec (probedDomain email))).
  rewrite nonEmpty_eqb.
  destruct (fst r3) as [|c srv]; cbn [nonEmpty gostring_eqb negb]; halted.
  rewrite run_bind. fields. rewrite <- !app_assoc.
  set (r4 := run o (h ++ snd r1 ++ snd r2 ++ snd r3) (smtpSupportsSTARTTLS ec (c :: srv))).
  destruct (fst r4); cbn [negb]; halted.
Qed.

(** *** The calls of each stage *)

Lemma hasMXRecord_calls h d :
  forallb (fun c => negb (isDNSSECProbe c || isSTARTTLSProbe c))
          (snd (run o h (hasMXRecord ec d))) = true.
Proof.
  unfold hasMXRecord, verbosePrintf. simpl.
  destruct (o h _ (LookupMX d)) as [records [err|]]; simpl; [|reflexivity].
  destruct (Verbose (config ec)); reflexivity.
Qed.

Lemma hasMXRecord_one_lookup h d :
  List.length (filter isLookupMX (snd (run o h (hasMXRecord ec d)))) = 1%nat.
Proof.
  unfold hasMXRecord, verbosePrintf. simpl.
  destruct (o h _ (LookupMX d)) as [records [err|]]; simpl; [|reflexivity].
  destruct (Verbose (config ec)); reflexivity.
Qed.

Lemma hasDNSSEC_calls h d :
  forallb (fun c => negb (isLookupMX c || isSTARTTLSProbe c))
          (snd (run o h (hasDNSSEC ec d))) = true.
Proof.
  unfold hasDNSSEC, verbosePrintf. simpl.
  destruct (o h _ (CommandOutput _ _)) as [out [err|]]; simpl; [|reflexivity].
  destruct (Verbose (config ec)); reflexivity.
Qed.

Lemma getPrimaryMXServer_calls h d :
  forallb (fun c => negb (isDNSSECProbe c || isSTARTTLSProbe c))
          (snd (run o h (getPrimaryMXServer ec d))) = true.
Proof.
  unfold getPrimaryMXServer, verbosePrintf. simpl.
  destruct (o h _ (LookupMX d)) as [records [err|]]; simpl.
  - destruct (Verbose (config ec)); reflexivity.
  - destruct (List.length records =? 0)%nat.
    + destruct (Verbose (config ec)); reflexivity.
    + destruct (primaryOf records); reflexivity.
Qed.

End PipelineFacts.

(* ================================================================= *)
(** ** The loop of [getPrimaryMXServer] *)

Section PrimaryMX.

Import GoString Effects Checker Spec.
Local Open Scope char_scope.

Lemma firstMinimum_single mx : firstMinimum [mx] 0 mx.
Proof.
  repeat split.
  - intros mx' [<-|[]]. lia.
  - intros j mx' Hj. lia.
Qed.

(** One more record: the selection moves to it when its preference is
    strictly smaller, and stays otherwise. *)
Lemma firstMinimum_step seen i mx a :
  firstMinimum seen i mx ->
  exists i' mx', pickPrimary (Some mx) a = Some mx' /\
                 firstMinimum (seen ++ [a]) i' mx'.
Proof.
  intros (Hnth & Hmin & Hfirst). unfold pickPrimary.
  assert (Hi : (i < List.length seen)%nat) by (apply nth_error_Some; congruence).
  destruct (Pref a <? Pref mx)%Z eqn:E.
  - apply Z.ltb_lt in E. exists (List.length seen), a. split; [reflexivity|].
    repeat split.
    + rewrite nth_error_app2, Nat.sub_diag by lia. reflexivity.
    + intros mx' Hin. apply in_app_iff in Hin as [Hin|[<-|[]]]; [|lia].
      specialize (Hmin mx' Hin). lia.
    + intros j mx' Hj Hn. rewrite nth_error_app1 in Hn by assumption.
      apply nth_error_In in Hn. specialize (Hmin mx' Hn). lia.
  - apply Z.ltb_ge in E. exists i, mx. split; [reflexivity|].
    repeat split.
    + rewrite nth_error_app1 by assumption. assumption.
    + intros mx' Hin. apply in_app_iff in Hin as [Hin|[<-|[]]]; [auto|lia].
    + intros j mx' Hj Hn. rewrite nth_error_app1 in Hn by lia. eauto.
Qed.

Lemma firstMinimum_loop : forall rest seen i mx,
  firstMinimum seen i mx ->
  exists i' mx', fold_left pickPrimary rest (Some mx) = Some mx' /\
                 firstMinimum (seen ++ rest) i' mx'.
Proof.
  induction rest as [|a rest IH]; intros seen i mx H.
  - exists i, mx. rewrite app_nil_r. auto.
  - destruct (firstMinimum_step _ _ _ a H) as (i1 & mx1 & E1 & H1).
    destruct (IH _ _ _ H1) as (i2 & mx2 & E2 & H2).
    exists i2, mx2. cbn [fold_left]. rewrite E1, E2. rewrite <- app_assoc in H2. auto.
Qed.

Lemma primaryOf_firstMinimum records :
  records <> [] ->
  exists i mx, primaryOf records = Some mx /\ firstMinimum records i mx.
Proof.
  destruct records as [|a rest]; [congruence|]. intros _.
  apply (firstMinimum_loop rest [a] 0 a), firstMinimum_single.
Qed.

Lemma gostring_eqb_single b c : gostring_eqb [b] [c] = byte_eqb b c.
Proof. simpl. apply andb_true_r. Qed.

Lemma strip_trailing_dot host :
  (if HasSuffix host (str ".") then sliceTo host (Z.of_nat (len host) - 1) else host)
  = stripDot host.
Proof.
  unfold stripDot, HasSuffix, sliceTo.
  destruct host as [|x host']; [reflexivity|].
  destruct (exists_last (l := x :: host') ltac:(discriminate)) as (m & b & ->).
  rewrite rev_app_distr. simpl rev. cbn [app].
  rewrite length_app. simpl len.
  replace (len m + 1 - 1)%nat with (len m + 0)%nat by lia.
  rewrite skipn_app, Nat.add_0_r, skipn_all. cbn [app].
  replace (len m - len m)%nat with 0%nat by lia. cbn [skipn].
  change (str ".") with ["."]. rewrite gostring_eqb_single.
  replace (1 <=? len m + 1)%nat with true by (symmetry; apply Nat.leb_le; lia).
  cbn [andb]. destruct (byte_eqb b "."); [|reflexivity].
  rewrite rev_involutive.
  replace (Z.to_nat (Z.of_nat (len m + 1) - 1)) with (len m + 0)%nat by lia.
  rewrite firstn_app_2. cbn [firstn]. apply app_nil_r.
Qed.

End PrimaryMX.

(* ================================================================= *)
(** ** The marker scan of [hasDNSSEC] *)

Section Marker.

Import GoString Effects Checker Spec.
Local Open Scope char_scope.

Lemma firstn_eq_length (s m : gostring) : firstn (len m) s = m -> (len m <= len s)%nat.
Proof.
  intro H. rewrite <- H at 1. rewrite length_firstn. lia.
Qed.

Lemma HasPrefix_iff s m : HasPrefix s m = true <-> firstn (len m) s = m.
Proof.
  unfold HasPrefix. rewrite andb_true_iff, gostring_eqb_eq, Nat.leb_le.
  split; [intros [_ H]; exact H|]. intro H. split; [apply firstn_eq_length|]; assumption.
Qed.

Lemma Contains_iff m : forall s,
  Contains s m = true <-> exists i, firstn (len m) (skipn i s) = m.
Proof.
  induction s as [|c s IH]; simpl Contains; rewrite orb_true_iff, HasPrefix_iff.
  - split.
    + intros [H|H]; [exists 0%nat; assumption|discriminate].
    + intros [i H]. left. rewrite skipn_nil in H. assumption.
  - rewrite IH. split.
    + intros [H|[i H]]; [exists 0%nat; assumption|exists (S i); assumption].
    + intros [[|i] H]; [left; assumption|right; exists i; assumption].
Qed.

Lemma containsFold_iff s m :
  containsFold s m = true <->
  exists i, map upperByte (firstn (len m) (skipn i s)) = map upperByte m.
Proof.
  unfold containsFold, equalFold. rewrite existsb_exists. split.
  - intros (i & _ & H). apply gostring_eqb_eq in H. eauto.
  - intros (i & H). destruct (Nat.le_gt_cases i (len s)) as [L|L].
    + exists i. split; [apply in_seq; lia|apply gostring_eqb_eq; assumption].
    + exists (len s). split; [apply in_seq; lia|]. apply gostring_eqb_eq.
      rewrite skipn_all in *. rewrite skipn_all2 in H by lia. assumption.
Qed.

Lemma ToUpper_ascii {U : Unicode} s : isASCII s = true -> ToUpper s = map upperByte s.
Proof.
  intro H. unfold ToUpper. rewrite H.
  destruct (existsb isLowerByte s) eqn:E; simpl; [reflexivity|].
  symmetry. clear H. induction s as [|c s IH]; simpl in *; [reflexivity|].
  apply orb_false_iff in E as [Hc Hs]. unfold upperByte at 1. rewrite Hc, IH by assumption.
  reflexivity.
Qed.

(** On ASCII text the two scans of [hasDNSSEC] together are a search for
    the marker in any mix of cases. *)
Lemma marker_scan {U : Unicode} out :
  isASCII out = true ->
  Contains out (str "RRSIG") || Contains (ToUpper out) (str "RRSIG")
  = containsFold out (str "RRSIG").
Proof.
  intro H. rewrite (ToUpper_ascii _ H). apply eq_true_iff_eq.
  rewrite orb_true_iff, !Contains_iff, containsFold_iff.
  change (map upperByte (str "RRSIG")) with (str "RRSIG").
  split.
  - intros [[i E]|[i E]]; exists i.
    + rewrite E. reflexivity.
    + rewrite skipn_map, firstn_map in E. exact E.
  - intros [i E]. right. exists i. rewrite skipn_map, firstn_map. assumption.
Qed.

End Marker.

(* ================================================================= *)
(** ** The tables of the repository's tests *)

Section Tests.

Import GoString Checker.
Context {U : Unicode}.

(** [TestEmailChecker_normalizeEmail] *)
Lemma test_normalizeEmail :
  map normalizeEmail
    [str "test@gmail.com"; str "te.st@gmail.com"; str "test+tag@gmail.com";
     str "te.st+tag@gmail.com"; str "test@googlemail.com"; str "test@example.com";
     str "Test@Example.Com"]
  = [str "test@gmail.com"; str "test@gmail.com"; str "test@gmail.com";
     str "test@gmail.com"; str "test@gmail.com"; str "test@example.com";
     str "test@example.com"].
Proof. reflexivity. Qed.

(** [TestEmailChecker_extractDomain] *)
Lemma test_extractDomain :
  map extractDomain
    [str "test@example.com"; str "user@DOMAIN.COM"; str "invalid-email";
     str "@example.com"; str "test@"]
  = [str "example.com"; str "domain.com"; []; str "example.com"; []].
Proof. reflexivity. Qed.

End Tests.

(* ================================================================= *)
(** ** The claims *)

Section CallLists.

Import Effects.

Lemma none_of_two (P Q : Call -> bool) t :
  forallb (fun c => negb (P c || Q c)) t = true ->
  existsb P t = false /\ existsb Q t = false.
Proof.
  induction t as [|c t IH]; simpl; [auto|]. intro H.
  apply andb_true_iff in H as [Hc Ht]. apply negb_true_iff, orb_false_iff in Hc as [-> ->].
  simpl. auto.
Qed.

Lemma existsb_false_filter (P : Call -> bool) t : existsb P t = false -> filter P t = [].
Proof.
  induction t as [|c t IH]; simpl; [reflexivity|]. intro H.
  apply orb_false_iff in H as [-> Ht]. auto.
Qed.

End CallLists.

Section Claims.

Import GoString Regexp Effects Checker Spec.
Local Open Scope char_scope.

(** C1.  Whatever the probes answer, [ValidateEmail] reports [Valid = true]
    exactly when the five stages succeed, each run after the ones before it:
    the format check, the MX check, the DNSSEC check, a non-empty primary MX
    server, the STARTTLS check.  A valid result carries the success reason,
    the three evidence flags set and a non-empty primary MX server; an
    invalid result carries the reason of the first stage that failed. *)
Theorem ValidateEmail_verdict {U : Unicode} (ec : EmailChecker) (o : Oracle)
    (h : list Call) (email : gostring) :
  let r := fst (run o h (ValidateEmail ec email)) in
  let st := stages ec o h email in
  (Valid r = true <->
     formatOK st = true /\ mxOK st = true /\ dnssecOK st = true /\
     primaryMX st <> [] /\ starttlsOK st = true) /\
  (Valid r = true ->
     Reason r = str "Email is valid and domain supports secure mail delivery" /\
     HasMXRecord r = true /\ HasDNSSEC r = true /\ SupportsSTARTTLS r = true /\
     PrimaryMXServer r <> []) /\
  (Valid r = false -> firstFailure st = Some (Reason r)).
Proof.
  cbv zeta. rewrite ValidateEmail_halting. unfold halting, firstFailure.
  destruct (formatOK (stages ec o h email)); cbn [negb fst Valid Reason];
    [|repeat split; try discriminate; intros (? & _); discriminate].
  destruct (mxOK (stages ec o h email)); cbn [negb fst Valid Reason];
    [|repeat split; try discriminate; intros (_ & ? & _); discriminate].
  destruct (dnssecOK (stages ec o h email)); cbn [negb fst Valid Reason];
    [|repeat split; try discriminate; intros (_ & _ & ? & _); discriminate].
  destruct (primaryMX (stages ec o h email)) as [|c srv];
    cbn [nonEmpty gostring_eqb negb fst Valid Reason];
    [repeat split; try discriminate; intros (_ & _ & _ & ? & _); congruence|].
  destruct (starttlsOK (stages ec o h email)); cbn [negb fst Valid Reason];
    [|repeat split; try discriminate; intros (_ & _ & _ & _ & ?); discriminate].
  repeat split; try discriminate.
Qed.

(** C2.  The pipeline halts at the first failing stage and makes none of the
    calls of a later stage.  A format failure makes no call at all and leaves
    the domain and the evidence fields at their zero values; a failed MX
    check gives the MX reason, makes no call of the DNSSEC or STARTTLS probe
    and leaves both flags false; a failed DNSSEC check is followed neither by
    the second MX lookup nor by the STARTTLS probe; an empty primary MX
    server is not followed by the STARTTLS probe. *)
Theorem ValidateEmail_halts {U : Unicode} (ec : EmailChecker) (o : Oracle)
    (h : list Call) (email : gostring) :
  let r := fst (run o h (ValidateEmail ec email)) in
  let t := snd (run o h (ValidateEmail ec email)) in
  let st := stages ec o h email in
  (formatOK st = false ->
     t = [] /\ Domain r = [] /\ HasMXRecord r = false /\ HasDNSSEC r = false /\
     PrimaryMXServer r = [] /\ SupportsSTARTTLS r = false) /\
  (formatOK st = true -> mxOK st = false ->
     Reason r = str "Domain doesn't have MX record" /\
     existsb isDNSSECProbe t = false /\ existsb isSTARTTLSProbe t = false /\
     HasDNSSEC r = false /\ SupportsSTARTTLS r = false) /\
  (formatOK st = true -> mxOK st = true -> dnssecOK st = false ->
     List.length (filter isLookupMX t) = 1%nat /\
     existsb isSTARTTLSProbe t = false) /\
  (formatOK st = true -> mxOK st = true -> dnssecOK st = true ->
     primaryMX st = [] ->
     existsb isSTARTTLSProbe t = false).
Proof.
  cbv zeta. rewrite ValidateEmail_halting. unfold halting.
  pose proof (none_of_two _ _ _ (hasMXRecord_calls ec o h (probedDomain email))) as [M1 M2].
  pose proof (hasMXRecord_one_lookup ec o h (probedDomain email)) as M3.
  pose proof (none_of_two _ _ _
    (hasDNSSEC_calls ec o (h ++ snd (runMX ec o h email)) (probedDomain email))) as [D1 D2].
  pose proof (none_of_two _ _ _
    (getPrimaryMXServer_calls ec o (h ++ snd (runMX ec o h email) ++ snd (runDNSSEC ec o h email))
       (probedDomain email))) as [P1 P2].
  fold (runMX ec o h email) in M1, M2, M3. fold (runDNSSEC ec o h email) in D1, D2.
  fold (runPrimary ec o h email) in P1, P2.
  split; [|split; [|split]].
  - intros ->. repeat split.
  - intros -> ->. cbn [negb snd fst Reason HasDNSSEC SupportsSTARTTLS]. auto.
  - intros -> -> ->. cbn [negb snd]. split.
    + rewrite filter_app, length_app, M3, (existsb_false_filter _ _ D1). reflexivity.
    + rewrite existsb_app, M2, D2. reflexivity.
  - intros -> -> -> E. rewrite E. cbn [nonEmpty gostring_eqb negb snd].
    rewrite !existsb_app, M2, D2, P2. reflexivity.
Qed.

(** C3 (as amended).  On an address of ASCII bytes without white space, and
    so on every address that [isValidEmailFormat] accepts, normalising twice
    is normalising once. *)
Theorem normalizeEmail_idempotent {U : Unicode} (a : gostring) :
  isPlain a = true \/ isValidEmailFormat a = true ->
  normalizeEmail (normalizeEmail a) = normalizeEmail a.
Proof.
  intros [H|H]; apply normalizeEmail_idempotent_plain; [|apply isValidEmailFormat_plain];
    assumption.
Qed.

(** C4.  [normalizeEmail] is the Gmail folding of the trimmed, lower-cased
    input: with exactly one [@] and the domain [gmail.com] or
    [googlemail.com], the dots of the local part are deleted, the local part
    is cut at its first [+] and the domain becomes [gmail.com]; any other
    input comes back trimmed and lower-cased, nothing more. *)
Theorem normalizeEmail_spec {U : Unicode} :
  (forall a, normalizeEmail a = normalizeSpec a) /\
  normalizeEmail (str "te.st+tag@gmail.com") = str "test@gmail.com" /\
  normalizeEmail (str "te.st+tag@googlemail.com") = str "test@gmail.com" /\
  normalizeEmail (str "a.b+c@example.com") = str "a.b+c@example.com" /\
  normalizeEmail (" " :: "009" :: str "A.B+C@Example.COM ") = str "a.b+c@example.com".
Proof.
  split; [exact normalizeEmail_normalizeSpec|]. repeat split; reflexivity.
Qed.

(** C5.  [isValidEmailFormat] accepts exactly the strings of at most 254
    bytes with the structure: a non-empty local part of allowed characters,
    one [@], and a domain of dot-separated labels of 1 to 63 alphanumeric
    characters with hyphens inside only.  The nine examples of the tests. *)
Theorem isValidEmailFormat_spec :
  (forall s, isValidEmailFormat s = formatSpec s) /\
  isValidEmailFormat [] = false /\
  isValidEmailFormat (str "invalid-email") = false /\
  isValidEmailFormat (str "@example.com") = false /\
  isValidEmailFormat (str "test@") = false /\
  isValidEmailFormat (str "test@.com") = false /\
  isValidEmailFormat (str "test@com.") = false /\
  isValidEmailFormat (str "test@example.com") = true /\
  isValidEmailFormat (str "user.name@domain.co.uk") = true /\
  isValidEmailFormat (str "user+tag@example.org") = true.
Proof.
  split.
  - intro s. unfold isValidEmailFormat, formatSpec. rewrite MatchString_wellFormed.
    reflexivity.
  - repeat split; vm_compute; reflexivity.
Qed.

(** C6.  [getPrimaryMXServer] answers the empty string when the lookup fails
    or finds no record; otherwise it answers the host, without its final dot
    if it has one, of the first record among those of minimum preference. *)
Theorem getPrimaryMXServer_spec (ec : EmailChecker) (o : Oracle) (h : list Call)
    (domain : gostring) :
  let answer := o h _ (LookupMX domain) in
  let server := fst (run o h (getPrimaryMXServer ec domain)) in
  (snd answer <> None \/ fst answer = [] -> server = []) /\
  (snd answer = None -> fst answer <> [] ->
     exists i mx, firstMinimum (fst answer) i mx /\ server = stripDot (Host mx)).
Proof.
  cbv zeta. unfold getPrimaryMXServer, verbosePrintf. simpl run.
  destruct (o h _ (LookupMX domain)) as [records err]. cbn [fst snd].
  split.
  - intros [H| ->].
    + destruct err; [|congruence]. cbn [isNil negb orb].
      destruct (Verbose (config ec)); reflexivity.
    + replace (negb (isNil err) || (List.length (@nil MX) =? 0)%nat) with true
        by (destruct err; reflexivity).
      destruct (Verbose (config ec)); reflexivity.
  - intros -> Hne. cbn [isNil negb orb].
    destruct records as [|a rest] eqn:E; [congruence|]. rewrite <- E in *.
    replace (List.length records =? 0)%nat with false by (subst; reflexivity).
    destruct (primaryOf_firstMinimum records Hne) as (i & mx & -> & Hmin).
    exists i, mx. split; [assumption|]. cbn [run fst]. apply strip_trailing_dot.
Qed.

(** C7.  [hasDNSSEC] answers [false] whenever the invocation of [dig]
    fails, whatever it printed.  When the invocation succeeds and the output
    holds [RRSIG] as written, the answer is [true]; and on ASCII output,
    which is what [dig] prints, the answer is [true] exactly when the
    invocation succeeds and the output holds the marker [RRSIG] in some mix
    of upper and lower case. *)
Theorem hasDNSSEC_spec {U : Unicode} (ec : EmailChecker) (o : Oracle) (h : list Call)
    (domain : gostring) :
  let answer :=
    o h _ (CommandOutput (str "dig") [str "+dnssec"; str "+short"; str "SOA"; domain]) in
  let verdict := fst (run o h (hasDNSSEC ec domain)) in
  (snd answer <> None -> verdict = false) /\
  (snd answer = None -> Contains (fst answer) (str "RRSIG") = true -> verdict = true) /\
  (isASCII (fst answer) = true ->
     (verdict = true <->
      snd answer = None /\ containsFold (fst answer) (str "RRSIG") = true)).
Proof.
  cbv zeta. unfold hasDNSSEC, verbosePrintf. simpl run.
  destruct (o h _ (CommandOutput _ _)) as [out err]. cbn [fst snd].
  destruct err as [e|]; cbn [isNil negb].
  - split; [|split].
    + intros _. destruct (Verbose (config ec)); reflexivity.
    + discriminate.
    + intros _. split; [|intros [? _]; discriminate].
      destruct (Verbose (config ec)); discriminate.
  - cbn [run fst]. split; [congruence|split].
    + intros _ H. apply orb_true_iff. left. exact H.
    + intro H. rewrite (marker_scan _ H).
      split; [auto|intros [_ ?]; assumption].
Qed.

(** C8.  [extractDomain] answers what follows the [@], trimmed and
    lower-cased, when the address holds exactly one [@], and the empty string
    otherwise.  The three examples of the specification. *)
Theorem extractDomain_spec {U : Unicode} :
  (forall email, extractDomain email = extractDomainSpec email) /\
  extractDomain (str "test@example.com") = str "example.com" /\
  extractDomain (str "invalid-email") = [] /\
  extractDomain (str "test@") = [].
Proof.
  split; [exact extractDomain_extractDomainSpec|]. repeat split; reflexivity.
Qed.

(** C9.  The domain extracted from the normalised form of an accepted
    address is never empty. *)
Theorem extractDomain_nonempty {U : Unicode} (email : gostring) :
  isValidEmailFormat email = true ->
  extractDomain (normalizeEmail email) <> [].
Proof.
  intro H.
  destruct (normalizeEmail_accepted _ H) as (p & q & -> & Hp & Hq & Hne & Hl).
  rewrite extractDomain_extractDomainSpec. unfold extractDomainSpec.
  destruct (cut_at _ _ Hp Hq) as (-> & _ & ->). cbn [Nat.eqb].
  fold (canonical q). rewrite (canonical_fixed _ Hl). assumption.
Qed.

(** C10.  When the format check fails the result holds the input, byte for
    byte, as [NormalizedEmail]; [Valid] is false, [Reason] is the format
    reason and every other field has its zero value. *)
Theorem ValidateEmail_invalid_format {U : Unicode} (ec : EmailChecker) (o : Oracle)
    (h : list Call) (email : gostring) :
  isValidEmailFormat email = false ->
  fst (run o h (ValidateEmail ec email)) =
  {| Valid := false; Reason := str "Invalid email format"; NormalizedEmail := email;
     Domain := []; HasMXRecord := false; HasDNSSEC := false; PrimaryMXServer := [];
     SupportsSTARTTLS := false |}.
Proof.
  intro H. unfold ValidateEmail. rewrite H. reflexivity.
Qed.

End Claims.

(* ================================================================= *)
(** ** The claims on concrete inputs *)

Section Instances.

Import GoString Regexp Effects Checker Spec.
Local Open Scope char_scope.

(** In the world where every probe succeeds, [User.Name+x@gmail.com] is
    valid, with the success reason, and the primary server is the first of
    the two servers of preference 10. *)
Lemma ValidateEmail_verdict_secure :
  let r := fst (run secureWorld []
                  (ValidateEmail (U := caselessUnicode) verboseChecker
                     (str "User.Name+x@gmail.com"))) in
  Valid r = true /\
  Reason r = str "Email is valid and domain supports secure mail delivery" /\
  NormalizedEmail r = str "username@gmail.com" /\
  PrimaryMXServer r = str "mail.example.com".
Proof.
  cbv zeta.
  pose proof (ValidateEmail_verdict (U := caselessUnicode) verboseChecker secureWorld []
                (str "User.Name+x@gmail.com")) as H.
  cbv zeta in H. destruct H as (Hiff & Hvalid & _).
  assert (V : Valid (fst (run secureWorld []
                (ValidateEmail (U := caselessUnicode) verboseChecker
                   (str "User.Name+x@gmail.com")))) = true).
  { apply Hiff. vm_compute. repeat split; discriminate. }
  split; [exact V|]. split; [exact (proj1 (Hvalid V))|]. split; vm_compute; reflexivity.
Defined.

(** In the world where nothing answers, a malformed address makes no call,
    and [test@example.com] stops after its one MX lookup. *)
Lemma ValidateEmail_halts_silent :
  snd (run silentWorld []
         (ValidateEmail (U := caselessUnicode) defaultChecker (str "invalid-email"))) = [] /\
  let t := snd (run silentWorld []
                  (ValidateEmail (U := caselessUnicode) defaultChecker
                     (str "test@example.com"))) in
  existsb isDNSSECProbe t = false /\ existsb isSTARTTLSProbe t = false.
Proof.
  cbv zeta. split.
  - pose proof (ValidateEmail_halts (U := caselessUnicode) defaultChecker silentWorld []
                  (str "invalid-email")) as H.
    cbv zeta in H. destruct H as (H & _). apply H. vm_compute. reflexivity.
  - pose proof (ValidateEmail_halts (U := caselessUnicode) defaultChecker silentWorld []
                  (str "test@example.com")) as H.
    cbv zeta in H. destruct H as (_ & H & _).
    destruct H as (_ & H1 & H2 & _); [vm_compute; reflexivity|vm_compute; reflexivity|].
    split; assumption.
Defined.

(** The address of the counterexample to unrestricted idempotence: a dot
    of a Gmail local part followed by a space. *)
Lemma normalizeEmail_not_idempotent :
  (forall U : Unicode,
     @normalizeEmail U (str ". a@gmail.com") = str " a@gmail.com") /\
  (forall U : Unicode,
     @normalizeEmail U (str " a@gmail.com") = str "a@gmail.com") /\
  ~ (exists U : Unicode,
       @normalizeEmail U (@normalizeEmail U (str ". a@gmail.com"))
       = @normalizeEmail U (str ". a@gmail.com")).
Proof.
  split; [intro U; reflexivity|]. split; [intro U; reflexivity|].
  intros [U H]. vm_compute in H. discriminate.
Qed.

Lemma normalizeEmail_idempotent_gmail :
  normalizeEmail (U := caselessUnicode)
    (normalizeEmail (U := caselessUnicode) (str "Te.St+tag@GoogleMail.com"))
  = normalizeEmail (U := caselessUnicode) (str "Te.St+tag@GoogleMail.com").
Proof.
  apply (normalizeEmail_idempotent (U := caselessUnicode)).
  right. vm_compute. reflexivity.
Defined.

(** Of a backup of preference 20 and two servers of preference 10, the
    first server of preference 10 is selected. *)
Lemma getPrimaryMXServer_secure :
  exists i mx,
    firstMinimum
      [mkMX (str "backup.example.com.") 20; mkMX (str "mail.example.com.") 10;
       mkMX (str "mail2.example.com.") 10] i mx /\
    fst (run secureWorld [] (getPrimaryMXServer verboseChecker (str "example.com")))
    = stripDot (Host mx).
Proof.
  destruct (getPrimaryMXServer_spec verboseChecker secureWorld [] (str "example.com"))
    as [_ H].
  apply H; [reflexivity|discriminate].
Defined.

(** The marker in lower case counts. *)
Lemma hasDNSSEC_secure :
  fst (run secureWorld []
         (hasDNSSEC (U := caselessUnicode) verboseChecker (str "example.com"))) = true.
Proof.
  destruct (hasDNSSEC_spec (U := caselessUnicode) verboseChecker secureWorld []
              (str "example.com")) as (_ & _ & H).
  apply H; [vm_compute; reflexivity|]. split; vm_compute; reflexivity.
Defined.

Lemma extractDomain_nonempty_gmail :
  extractDomain (U := caselessUnicode)
    (normalizeEmail (U := caselessUnicode) (str "User.Name+x@gmail.com")) <> [].
Proof.
  apply (extractDomain_nonempty (U := caselessUnicode)). vm_compute. reflexivity.
Defined.

(** A leading space fails the format check; the input comes back as it was,
    space, capitals, dot and tag included. *)
Lemma ValidateEmail_invalid_format_raw :
  fst (run secureWorld []
         (ValidateEmail (U := caselessUnicode) verboseChecker (str " Te.St+tag@GMAIL.com")))
  = {| Valid := false; Reason := str "Invalid email format";
       NormalizedEmail := str " Te.St+tag@GMAIL.com";
       Domain := []; HasMXRecord := false; HasDNSSEC := false; PrimaryMXServer := [];
       SupportsSTARTTLS := false |}.
Proof.
  apply (ValidateEmail_invalid_format (U := caselessUnicode)). vm_compute. reflexivity.
Defined.

End Instances.

(* ================================================================= *)
(** ** The calls of the stages, one by one *)

Section Anatomy.

Import GoString Effects Checker Spec Calls.
Context {U : Unicode}.
Variable ec : EmailChecker.
Variable o : Oracle.

(** The answer to a [Printf] is the one value of [unit]. *)
Ltac printed :=
  repeat match goal with
         | |- context [?f ?h unit (Printf ?x)] => destruct (f h unit (Printf x))
         end.

Lemma hasMXRecord_anatomy h d :
  oneCall (Verbose (config ec)) (fun v => v = false) (LookupMX d) (run o h (hasMXRecord ec d)).
Proof.
  unfold oneCall, hasMXRecord, verbosePrintf. simpl run.
  destruct (o h _ (LookupMX d)) as [records [e|]] eqn:E; cbn [isNil negb].
  - exists (records, Some e).
    destruct (Verbose (config ec)); simpl; printed;
      [right; split; [reflexivity|split; [reflexivity|eexists; reflexivity]]
      |left; reflexivity].
  - exists (records, None). left. reflexivity.
Qed.

Lemma hasDNSSEC_anatomy h d :
  oneCall (Verbose (config ec)) (fun v => v = false)
          (CommandOutput (str "dig") [str "+dnssec"; str "+short"; str "SOA"; d])
          (run o h (hasDNSSEC ec d)).
Proof.
  unfold oneCall, hasDNSSEC, verbosePrintf. simpl run.
  destruct (o h _ (CommandOutput _ _)) as [out [e|]] eqn:E; cbn [isNil negb].
  - exists (out, Some e).
    destruct (Verbose (config ec)); simpl; printed;
      [right; split; [reflexivity|split; [reflexivity|eexists; reflexivity]]
      |left; reflexivity].
  - exists (out, None). left. reflexivity.
Qed.

Lemma getPrimaryMXServer_anatomy h d :
  oneCall (Verbose (config ec)) (fun v => v = []) (LookupMX d) (run o h (getPrimaryMXServer ec d)).
Proof.
  unfold oneCall, getPrimaryMXServer, verbosePrintf. simpl run.
  destruct (o h _ (LookupMX d)) as [records err] eqn:E. exists (records, err).
  destruct (negb (isNil err) || (List.length records =? 0)%nat).
  - destruct (Verbose (config ec)); simpl; printed;
      [right; split; [reflexivity|split; [reflexivity|eexists; reflexivity]]
      |left; reflexivity].
  - left. destruct (primaryOf records); reflexivity.
Qed.

(** The SMTP probe with its diagnostics: five shapes. *)
Lemma smtp_anatomy h mx :
  let T := wrapInt64 (Timeout (config ec) * Second) in
  let dial := call (DialTimeout (str "tcp") (mx ++ str ":25") T) in
  let v := fst (run o h (smtpSupportsSTARTTLS ec mx)) in
  let t := snd (run o h (smtpSupportsSTARTTLS ec mx)) in
  (exists e, v = false /\
     (t = [dial (inr e)] \/
      (Verbose (config ec) = true /\ exists text,
         t = [dial (inr e); call (Printf text) tt]))) \/
  (exists k e c, v = false /\
     (t = [dial (inl k); call (NewClient k mx) (inr e); call (Close k) c] \/
      (Verbose (config ec) = true /\ exists text,
         t = [dial (inl k); call (NewClient k mx) (inr e); call (Printf text) tt;
              call (Close k) c]))) \/
  (exists k cl info q c,
     t = [dial (inl k); call (NewClient k mx) (inl cl);
          call (Extension cl (str "STARTTLS")) (v, info);
          call (Quit cl) q; call (Close k) c]).
Proof.
  cbv zeta. unfold smtpSupportsSTARTTLS, verbosePrintf. simpl run.
  destruct (o h _ (DialTimeout _ _ _)) as [k|e] eqn:D.
  - simpl run.
    match goal with |- context [o ?h' _ (NewClient k mx)] =>
      destruct (o h' _ (NewClient k mx)) as [cl|e] eqn:N end.
    + right; right. simpl run.
      match goal with |- context [o ?h' _ (Extension cl ?x)] =>
        destruct (o h' _ (Extension cl x)) as [ok info] eqn:X end.
      simpl. eauto 10.
    + right; left. destruct (Verbose (config ec)); simpl; printed.
      * do 3 eexists. split; [reflexivity|]. right. split; [reflexivity|]. eexists. reflexivity.
      * do 3 eexists. split; [reflexivity|]. left. reflexivity.
  - left. destruct (Verbose (config ec)); simpl; printed.
    + eexists. split; [reflexivity|]. right. eauto.
    + eexists. split; [reflexivity|]. left. reflexivity.
Qed.

End Anatomy.

(* ================================================================= *)
(** ** The calls of a whole run *)

Section WholeRun.

Import GoString Effects Checker Spec Calls.
Context {U : Unicode}.
Variable ec : EmailChecker.
Variable o : Oracle.

(** What the four probes can have done, as hypotheses about four unknown
    pairs. *)
Lemma stages_anatomy h email :
  oneCall (Verbose (config ec)) (fun v => v = false)
          (LookupMX (probedDomain email)) (runMX ec o h email) /\
  oneCall (Verbose (config ec)) (fun v => v = false)
          (CommandOutput (str "dig")
             [str "+dnssec"; str "+short"; str "SOA"; probedDomain email])
          (runDNSSEC ec o h email) /\
  oneCall (Verbose (config ec)) (fun v => v = [])
          (LookupMX (probedDomain email)) (runPrimary ec o h email).
Proof.
  repeat split;
    [apply hasMXRecord_anatomy|apply hasDNSSEC_anatomy|apply getPrimaryMXServer_anatomy].
Qed.

End WholeRun.

(** Case analysis of a run of [ValidateEmail]: the goal is left once for
    each way the pipeline can halt, with the calls of the stages written out. *)
Ltac one_call A t :=
  let ans := fresh "ans" in
  destruct A as [ans [A|(? & ? & ? & A)]]; cbn [fst snd] in *; subst t.

Ltac whole_run ec o h email fin :=
  cbv zeta; rewrite ?(ValidateEmail_halting ec o h email);
  let A1 := fresh "A1" in let A2 := fresh "A2" in let A3 := fresh "A3" in
  let A4 := fresh "A4" in
  destruct (stages_anatomy ec o h email) as (A1 & A2 & A3);
  pose proof (smtp_anatomy ec o
                (h ++ snd (Spec.runMX ec o h email) ++ snd (Spec.runDNSSEC ec o h email)
                   ++ snd (Spec.runPrimary ec o h email))
                (fst (Spec.runPrimary ec o h email))) as A4;
  cbv zeta in A4;
  change (Effects.run o _ (Checker.smtpSupportsSTARTTLS ec _))
    with (Spec.runSTARTTLS ec o h email) in A4;
  unfold Spec.halting, Spec.stages;
  cbn [Spec.formatOK Spec.mxOK Spec.dnssecOK Spec.primaryMX Spec.starttlsOK];
  revert A1 A2 A3 A4;
  generalize (Spec.runSTARTTLS ec o h email);
  generalize (Spec.runPrimary ec o h email);
  generalize (Spec.runDNSSEC ec o h email);
  generalize (Spec.runMX ec o h email);
  intros [v1 t1] [v2 t2] [v3 t3] [v4 t4] A1 A2 A3 A4; cbn [fst snd] in *;
  destruct (Checker.isValidEmailFormat email) eqn:?; cbn [negb];
  try solve [fin];
  one_call A1 t1; destruct v1; try (exfalso; congruence); cbn [negb];
  try solve [fin];
  one_call A2 t2; destruct v2; try (exfalso; congruence); cbn [negb];
  try solve [fin];
  one_call A3 t3; destruct v3 as [|? ?]; try (exfalso; congruence);
  cbn [Spec.nonEmpty gostring_eqb negb];
  try solve [fin];
  destruct A4 as [(? & ? & [A4|(? & ? & A4)])
                 |[(? & ? & ? & ? & [A4|(? & ? & A4)])
                  |(? & ? & ? & ? & ? & A4)]];
  subst t4; try subst v4; try destruct v4; cbn [negb];
  try solve [fin].

(* ================================================================= *)
(** ** More about the checker *)

Section CheckerFacts.

Import GoString Effects Checker Spec Calls.
Context {U : Unicode}.

(** X1.  [smtpSupportsSTARTTLS] answers [true] exactly when the dial to port
    25 of the server succeeds, the SMTP session is started and the server
    lists STARTTLS; its calls are then the dial, the greeting, the query, the
    QUIT and the close, in this order and with nothing printed. *)
Theorem smtpSupportsSTARTTLS_true_iff (ec : EmailChecker) (o : Oracle)
    (h : list Call) (mxServer : gostring) :
  let T := wrapInt64 (Timeout (config ec) * Second) in
  let v := fst (run o h (smtpSupportsSTARTTLS ec mxServer)) in
  let t := snd (run o h (smtpSupportsSTARTTLS ec mxServer)) in
  v = true <->
  exists k cl info q c,
    t = [call (DialTimeout (str "tcp") (mxServer ++ str ":25") T) (inl k);
         call (NewClient k mxServer) (inl cl);
         call (Extension cl (str "STARTTLS")) (true, info);
         call (Quit cl) q; call (Close k) c].
Proof.
  cbv zeta.
  destruct (smtp_anatomy ec o h mxServer)
    as [(e & Hv & [Ht|(_ & text & Ht)])
       |[(k & e & c & Hv & [Ht|(_ & text & Ht)])
        |(k & cl & info & q & c & Ht)]];
    cbv zeta in *; rewrite Ht; try rewrite Hv;
    try (split; [intro X; discriminate X
                |intros (? & ? & ? & ? & ? & X);
                 apply (f_equal (@List.length Call)) in X; discriminate X]).
  split.
  - intro Hv. rewrite Hv. eauto 10.
  - intros (k' & cl' & info' & q' & c' & E).
    apply (f_equal (existsb isExtensionListed)) in E. cbn in E.
    rewrite !orb_false_r in E. exact E.
Qed.

(** X2.  [smtpSupportsSTARTTLS] closes the connection it opened, whatever
    happens after the dial, and the close is its last call; it ends with
    QUIT the session it started, before the close; and when the dial fails
    it makes no further SMTP call. *)
Theorem smtpSupportsSTARTTLS_releases (ec : EmailChecker) (o : Oracle)
    (h : list Call) (mxServer : gostring) :
  let t := snd (run o h (smtpSupportsSTARTTLS ec mxServer)) in
  closedConns t = openedConns t /\
  quitSessions t = startedSessions t /\
  (forall k, In k (openedConns t) -> exists t' c, t = t' ++ [call (Close k) c]) /\
  (forall cl, In cl (startedSessions t) ->
     exists t' q c k, t = t' ++ [call (Quit cl) q; call (Close k) c]) /\
  (openedConns t = [] -> count isSTARTTLSProbe t = 1%nat).
Proof.
  cbv zeta.
  destruct (smtp_anatomy ec o h mxServer)
    as [(e & Hv & [Ht|(_ & text & Ht)])
       |[(k & e & c & Hv & [Ht|(_ & text & Ht)])
        |(k & cl & info & q & c & Ht)]];
    cbv zeta in *; rewrite Ht; cbn; repeat split; try contradiction;
    try discriminate; try reflexivity.
  - intros k' [<-|[]]. eexists [_; _], c. reflexivity.
  - intros k' [<-|[]]. eexists [_; _; _], c. reflexivity.
  - intros k' [<-|[]]. eexists [_; _; _; _], c. reflexivity.
  - intros cl' [<-|[]]. eexists [_; _; _], q, c, k. reflexivity.
Qed.

(** X3.  The dial goes to port 25 of the server over TCP, and for a
    configured timeout of 0 to 9223372036 seconds it is bounded by that many
    seconds in nanoseconds; from 9223372037 seconds on (up to 18446744073)
    the multiplication wraps around and the bound is negative. *)
Theorem smtpSupportsSTARTTLS_dial (ec : EmailChecker) (o : Oracle)
    (h : list Call) (mxServer : gostring) :
  let t := snd (run o h (smtpSupportsSTARTTLS ec mxServer)) in
  let s := Timeout (config ec) in
  exists T ans rest,
    t = call (DialTimeout (str "tcp") (mxServer ++ str ":25") T) ans :: rest /\
    ((0 <= s <= 9223372036)%Z -> T = (s * 1000000000)%Z) /\
    ((9223372037 <= s <= 18446744073)%Z -> (T < 0)%Z).
Proof.
  cbv zeta. exists (wrapInt64 (Timeout (config ec) * Second)).
  destruct (smtp_anatomy ec o h mxServer)
    as [(e & Hv & [Ht|(_ & text & Ht)])
       |[(k & e & c & Hv & [Ht|(_ & text & Ht)])
        |(k & cl & info & q & c & Ht)]];
    cbv zeta in *; rewrite Ht; do 2 eexists; (split; [reflexivity|]);
    unfold wrapInt64, Second; split; intro R.
  all: try (rewrite Z.mod_small by lia; lia).
  all: replace ((Timeout (config ec) * 1000000000 + 2 ^ 63) mod 2 ^ 64)%Z
         with (Timeout (config ec) * 1000000000 + 2 ^ 63 - 2 ^ 64)%Z; [lia|];
       apply Z.mod_unique with (q := 1%Z); lia.
Qed.

(** X4.  A run of [ValidateEmail] leaks nothing: every connection it opened
    is closed and every SMTP session it started is ended, and it opens at
    most one connection, and only after the MX record, the DNSSEC evidence
    and the primary server were found. *)
Theorem ValidateEmail_releases (ec : EmailChecker) (o : Oracle)
    (h : list Call) (email : gostring) :
  let r := fst (run o h (ValidateEmail ec email)) in
  let t := snd (run o h (ValidateEmail ec email)) in
  closedConns t = openedConns t /\
  quitSessions t = startedSessions t /\
  (List.length (openedConns t) <= 1)%nat /\
  (existsb isSTARTTLSProbe t = true ->
     HasMXRecord r = true /\ HasDNSSEC r = true /\ PrimaryMXServer r <> []).
Proof.
  whole_run ec o h email
    ltac:(cbn; repeat split; try reflexivity; try lia; try discriminate).
Qed.

(** X5.  Without the verbose setting [ValidateEmail] prints nothing; and
    with it, a run that ends valid has printed nothing either. *)
Theorem ValidateEmail_quiet (ec : EmailChecker) (o : Oracle)
    (h : list Call) (email : gostring) :
  let r := fst (run o h (ValidateEmail ec email)) in
  let t := snd (run o h (ValidateEmail ec email)) in
  (Verbose (config ec) = false -> existsb isPrintf t = false) /\
  (Valid r = true -> existsb isPrintf t = false).
Proof.
  whole_run ec o h email
    ltac:(cbn; split; intros; try reflexivity; try discriminate; congruence).
Qed.

(** X6.  [ValidateEmail] never repeats a probe: a run makes at most two MX
    lookups, one invocation of [dig] and one dial, prints at most one line,
    and makes at most eight calls in all. *)
Theorem ValidateEmail_call_budget (ec : EmailChecker) (o : Oracle)
    (h : list Call) (email : gostring) :
  let t := snd (run o h (ValidateEmail ec email)) in
  (count isLookupMX t <= 2)%nat /\ (count isDNSSECProbe t <= 1)%nat /\
  (count isDial t <= 1)%nat /\ (count isPrintf t <= 1)%nat /\
  (List.length t <= 8)%nat.
Proof.
  whole_run ec o h email ltac:(cbn; lia).
Qed.

(** X7.  Every probe of a run is about what the result reports: the MX
    lookups and [dig] are asked about the [Domain] of the result ([dig] for
    its SOA record with [+dnssec +short]), and the SMTP calls go to port 25
    of its [PrimaryMXServer]. *)
Theorem ValidateEmail_probes_target (ec : EmailChecker) (o : Oracle)
    (h : list Call) (email : gostring) :
  let r := fst (run o h (ValidateEmail ec email)) in
  let t := snd (run o h (ValidateEmail ec email)) in
  Forall (isAbout (Domain r) (PrimaryMXServer r)) t.
Proof.
  whole_run ec o h email ltac:(cbn; repeat constructor).
Qed.

(** X8.  The evidence in a result is cumulative: the verdict is the
    STARTTLS flag; the STARTTLS flag comes with a primary server, a primary
    server with the DNSSEC flag, the DNSSEC flag with the MX flag, and the MX
    flag with a domain that is the domain of the normalised address. *)
Theorem ValidateEmail_evidence_ordered (ec : EmailChecker) (o : Oracle)
    (h : list Call) (email : gostring) :
  let r := fst (run o h (ValidateEmail ec email)) in
  Valid r = SupportsSTARTTLS r /\
  (SupportsSTARTTLS r = true -> PrimaryMXServer r <> []) /\
  (PrimaryMXServer r <> [] -> HasDNSSEC r = true) /\
  (HasDNSSEC r = true -> HasMXRecord r = true) /\
  (HasMXRecord r = true ->
     NormalizedEmail r = normalizeEmail email /\
     Domain r = extractDomain (NormalizedEmail r)).
Proof.
  whole_run ec o h email
    ltac:(cbn; repeat split; intros; try reflexivity; try discriminate; congruence).
Qed.

End CheckerFacts.

(* ================================================================= *)
(** ** Letter case and the format check *)

Section LetterCase.

Import GoString Regexp Checker Spec.
Local Open Scope char_scope.

Lemma Split_map (f : ascii -> ascii) sep :
  (forall c, byte_eqb (f c) sep = byte_eqb c sep) ->
  forall s, Split (map f s) sep = map (map f) (Split s sep).
Proof.
  intros Hf. induction s as [|c s IH]; [reflexivity|].
  cbn [map Split]. rewrite Hf, IH.
  destruct (byte_eqb c sep); [reflexivity|].
  destruct (Split s sep); reflexivity.
Qed.

Lemma lowerByte_at c : byte_eqb (lowerByte c) "@" = byte_eqb c "@".
Proof. each_byte c. Qed.

Lemma lowerByte_dot c : byte_eqb (lowerByte c) "." = byte_eqb c ".".
Proof. each_byte c. Qed.

Lemma lowerByte_local c : isLocalChar (lowerByte c) = isLocalChar c.
Proof. each_byte c. Qed.

Lemma lowerByte_label c : isLabelChar (lowerByte c) = isLabelChar c.
Proof. each_byte c. Qed.

Lemma lowerByte_alnum c : isAlnum (lowerByte c) = isAlnum c.
Proof. each_byte c. Qed.

Lemma forallb_map_same {A} (P : A -> bool) (f : A -> A) l :
  (forall x, P (f x) = P x) -> forallb P (map f l) = forallb P l.
Proof. intro H. induction l; simpl; [reflexivity|]. rewrite H, IHl. reflexivity. Qed.

Lemma last_lower l : last (map lowerByte l) "-" = lowerByte (last l "-").
Proof.
  induction l as [|a [|b l] IH]; [reflexivity|reflexivity|].
  change (last (map lowerByte (b :: l)) "-" = lowerByte (last (b :: l) "-")). exact IH.
Qed.

Lemma isLabel_lower l : isLabel (map lowerByte l) = isLabel l.
Proof.
  unfold isLabel. rewrite length_map, (forallb_map_same _ _ _ lowerByte_label), last_lower,
    lowerByte_alnum.
  destruct l; [reflexivity|]. cbn [map hd]. rewrite lowerByte_alnum. reflexivity.
Qed.

Lemma wellFormed_lower s : wellFormed (map lowerByte s) = wellFormed s.
Proof.
  unfold wellFormed, piecesOf. rewrite (Split_map _ _ lowerByte_at).
  destruct (Split s "@") as [|p [|q [|x xs]]]; try reflexivity.
  cbn [map]. rewrite length_map, (forallb_map_same _ _ _ lowerByte_local).
  rewrite (Split_map _ _ lowerByte_dot), (forallb_map_same _ _ _ isLabel_lower).
  reflexivity.
Qed.

Lemma isValidEmailFormat_lower s :
  isValidEmailFormat (map lowerByte s) = isValidEmailFormat s.
Proof.
  unfold isValidEmailFormat. rewrite !MatchString_wellFormed, wellFormed_lower, length_map.
  reflexivity.
Qed.

(** The parts of an accepted address, cut at its [@]. *)
Lemma accepted_parts s :
  isValidEmailFormat s = true ->
  s = before "@" s ++ "@" :: after "@" s /\
  before "@" s <> [] /\ forallb isLocalChar (before "@" s) = true /\
  after "@" s <> [] /\ forallb isDomainChar (after "@" s) = true /\
  forallb isLabel (Split (after "@" s) ".") = true /\
  (len s <= 254)%nat.
Proof.
  intro H. pose proof H as H'. unfold isValidEmailFormat in H'.
  apply andb_true_iff in H' as [W L]. apply Nat.leb_le in L.
  rewrite MatchString_wellFormed in W.
  apply wellFormed_shape in W as (loc & d & -> & Hne & Hloc & Hd).
  assert (Lp : lacks "@" loc) by (eapply forallb_lacks; [apply isLocalChar_not_at|assumption]).
  rewrite before_app, after_app by assumption.
  repeat split; auto using labels_nonempty, labels_domain_chars.
Qed.

End LetterCase.

(* ================================================================= *)
(** ** Accepted addresses, their normal form and their domain *)

Section Accepted.

Import GoString Regexp Effects Checker Spec Utils.
Local Open Scope char_scope.

Lemma Split_snoc_sep sep : forall s, Split (s ++ [sep]) sep = Split s sep ++ [[]].
Proof.
  induction s as [|c s IH]; simpl.
  - rewrite byte_eqb_refl. reflexivity.
  - rewrite IH. destruct (byte_eqb c sep); [reflexivity|].
    destruct (Split s sep) as [|p ps] eqn:E; [exfalso; exact (Split_not_nil _ _ E)|].
    reflexivity.
Qed.

(** A text cut into labels neither starts nor ends with a dot and is not
    empty: it is what [IsValidDomain] asks for, up to the length. *)
Lemma labels_IsValidDomain d :
  forallb isLabel (Split d ".") = true -> (len d <= 253)%nat ->
  IsValidDomain d = true.
Proof.
  intros H L. unfold IsValidDomain.
  destruct d as [|c d']; [discriminate|].
  replace (len (c :: d') =? 0)%nat with false by reflexivity.
  replace (253 <? len (c :: d'))%nat with false by (symmetry; apply Nat.ltb_ge; exact L).
  cbn [orb]. change (nth 0 (c :: d') "000") with c.
  destruct (byte_eqb c ".") eqn:E1.
  { apply byte_eqb_eq in E1 as ->. simpl in H. discriminate. }
  cbn [orb].
  destruct (exists_last (l := c :: d') ltac:(discriminate)) as (m & b & E).
  rewrite E in *. rewrite length_app. change (len [b]) with 1%nat.
  replace (len m + 1 - 1)%nat with (len m) by lia.
  rewrite nth_middle.
  destruct (byte_eqb b ".") eqn:E2; [|reflexivity].
  apply byte_eqb_eq in E2 as ->. rewrite Split_snoc_sep, forallb_app in H.
  apply andb_true_iff in H as [_ H]. discriminate.
Qed.

Lemma IsValidDomain_lower d : IsValidDomain (map lowerByte d) = IsValidDomain d.
Proof.
  unfold IsValidDomain. rewrite length_map.
  change "000" with (lowerByte "000") at 1 2. rewrite !map_nth, !lowerByte_dot.
  reflexivity.
Qed.

Lemma gmailLocal_length p : (len (gmailLocal p) <= len p)%nat.
Proof.
  unfold gmailLocal.
  assert (B : forall c s, (len (before c s) <= len s)%nat).
  { intros c s. induction s as [|a s IH]; simpl; [lia|].
    destruct (byte_eqb a c); simpl; lia. }
  etransitivity; [apply B|apply filter_length_le].
Qed.

Lemma isGmailDomain_cases q :
  isGmailDomain q = true -> q = str "gmail.com" \/ q = str "googlemail.com".
Proof.
  unfold isGmailDomain. intro H. apply orb_true_iff in H as [H|H];
    apply gostring_eqb_eq in H; auto.
Qed.

Context {U : Unicode}.

(** The normal form of an accepted address, without the Unicode tables. *)
Lemma normalizeEmail_closed_form s :
  isValidEmailFormat s = true ->
  let lo := map lowerByte (before "@" s) in
  let d := map lowerByte (after "@" s) in
  lacks "@" lo /\ lacks "@" d /\
  normalizeEmail s =
    (if isGmailDomain d then gmailLocal lo else lo) ++ "@"
      :: (if isGmailDomain d then str "gmail.com" else d) /\
  extractDomain (normalizeEmail s) = (if isGmailDomain d then str "gmail.com" else d).
Proof.
  intro H. cbv zeta.
  pose proof (isValidEmailFormat_plain _ H) as Hplain.
  destruct (accepted_parts _ H) as (E & Hne & Hloc & Hdne & Hd & _ & _).
  pose proof (map_lower_lacks_at _ _ isLocalChar_lower_not_at Hloc) as Lp.
  pose proof (map_lower_lacks_at _ _ isDomainChar_lower_not_at Hd) as Lq.
  assert (N : normalizeEmail s =
              (if isGmailDomain (map lowerByte (after "@" s))
               then gmailLocal (map lowerByte (before "@" s))
               else map lowerByte (before "@" s)) ++ "@"
                :: (if isGmailDomain (map lowerByte (after "@" s))
                    then str "gmail.com" else map lowerByte (after "@" s))).
  { rewrite normalizeEmail_normalizeSpec. unfold normalizeSpec.
    rewrite (canonical_plain _ Hplain). rewrite E at 1.
    rewrite map_app. cbn [map]. change (lowerByte "@") with "@".
    rewrite (foldGmail_cut _ _ Lp Lq).
    destruct (isGmailDomain (map lowerByte (after "@" s))); reflexivity. }
  repeat split; try assumption.
  rewrite N, extractDomain_extractDomainSpec. unfold extractDomainSpec.
  assert (Q : forallb isPlainLower (map lowerByte (after "@" s)) = true)
    by (apply map_lowerByte_plainLower, (forallb_impl _ _ _ isDomainChar_plain Hd)).
  destruct (isGmailDomain (map lowerByte (after "@" s))).
  - destruct (cut_at _ _ (gmailLocal_lacks _ _ Lp) lacks_literal_gmail) as (-> & _ & ->).
    reflexivity.
  - destruct (cut_at _ _ Lp Lq) as (-> & _ & ->). cbn [Nat.eqb].
    fold (canonical (map lowerByte (after "@" s))). apply canonical_fixed, Q.
Qed.

End Accepted.

(* ================================================================= *)
(** ** More about the format check, the normal form and the domain *)

Section FormatFacts.

Import GoString Regexp Effects Checker Spec Utils.
Local Open Scope char_scope.

(** X9.  An address that [isValidEmailFormat] accepts has 3 to 254 bytes,
    exactly one [@], no white space and no byte outside ASCII. *)
Theorem isValidEmailFormat_bounds (s : gostring) :
  isValidEmailFormat s = true ->
  (3 <= len s <= 254)%nat /\ countByte "@" s = 1%nat /\ isPlain s = true.
Proof.
  intro H. destruct (accepted_parts _ H) as (E & Hne & Hloc & Hdne & Hd & _ & L).
  split; [|split].
  - split; [|exact L]. rewrite E, length_app. simpl len.
    destruct (before "@" s); [congruence|]. destruct (after "@" s); [congruence|].
    simpl. lia.
  - rewrite E. apply countByte_one.
    + eapply forallb_lacks; [apply isLocalChar_not_at|assumption].
    + eapply forallb_lacks; [apply isDomainChar_not_at|assumption].
  - apply isValidEmailFormat_plain, H.
Qed.

(** X10.  On ASCII text the format check does not depend on the case of the
    letters: an address and its lower-casing are accepted together. *)
Theorem isValidEmailFormat_ToLower {U : Unicode} (s : gostring) :
  isASCII s = true ->
  isValidEmailFormat (ToLower s) = isValidEmailFormat s.
Proof.
  intro H. rewrite (ToLower_ascii _ H). apply isValidEmailFormat_lower.
Qed.

(** X11.  For an accepted address the result reports, whatever the probes
    answer: as [Domain] the lower-cased text after the [@], with
    [googlemail.com] reported as [gmail.com]; and as [NormalizedEmail] the
    lower-cased local part (for a Gmail domain: without dots and cut at the
    first [+]), an [@] and that [Domain]. *)
Theorem ValidateEmail_reports {U : Unicode} (ec : EmailChecker) (o : Oracle)
    (h : list Call) (email : gostring) :
  isValidEmailFormat email = true ->
  let r := fst (run o h (ValidateEmail ec email)) in
  let lo := map lowerByte (before "@" email) in
  let d := map lowerByte (after "@" email) in
  Domain r = (if isGmailDomain d then str "gmail.com" else d) /\
  NormalizedEmail r = (if isGmailDomain d then gmailLocal lo else lo) ++ "@" :: Domain r.
Proof.
  intro H. cbv zeta.
  destruct (normalizeEmail_closed_form _ H) as (_ & _ & N & D). cbv zeta in N, D.
  assert (F : NormalizedEmail (fst (run o h (ValidateEmail ec email))) = normalizeEmail email
              /\ Domain (fst (run o h (ValidateEmail ec email)))
                 = extractDomain (normalizeEmail email)).
  { rewrite ValidateEmail_halting. unfold halting, stages, probedDomain.
    cbn [formatOK mxOK dnssecOK primaryMX starttlsOK]. rewrite H. cbn [negb].
    repeat match goal with
           | |- context [if ?b then _ else _] => destruct b
           end; split; reflexivity. }
  destruct F as [-> ->]. rewrite D. split; [reflexivity|exact N].
Qed.

(** X12.  Normalising an accepted address never makes it longer, and gives
    an accepted address again, with one exception: a Gmail address whose
    local part holds nothing but dots before its first [+] becomes
    [@gmail.com], which the format check rejects. *)
Theorem normalizeEmail_keeps_format {U : Unicode} (s : gostring) :
  isValidEmailFormat s = true ->
  (len (normalizeEmail s) <= len s)%nat /\
  (isValidEmailFormat (normalizeEmail s) = true \/
   (normalizeEmail s = str "@gmail.com" /\
    gmailLocal (map lowerByte (before "@" s)) = [])).
Proof.
  intro H. destruct (normalizeEmail_closed_form _ H) as (Lp & Lq & N & _).
  cbv zeta in *. destruct (accepted_parts _ H) as (E & Hne & Hloc & Hdne & Hd & _ & L).
  pose proof (isValidEmailFormat_lower s) as V. rewrite H, E, map_app in V. cbn [map] in V.
  change (lowerByte "@") with "@" in V.
  destruct (isGmailDomain (map lowerByte (after "@" s))) eqn:G.
  - assert (Len : (len (normalizeEmail s) <= len s)%nat).
    { rewrite N. rewrite E at 2. rewrite !length_app. cbn [List.length].
      pose proof (gmailLocal_length (map lowerByte (before "@" s))) as B.
      rewrite length_map in B.
      assert (9 <= len (after "@" s))%nat; [|change (len (str "gmail.com")) with 9%nat; lia].
      rewrite <- (length_map lowerByte).
      destruct (isGmailDomain_cases _ G) as [-> | ->]; simpl; lia. }
    split; [exact Len|].
    destruct (gmailLocal (map lowerByte (before "@" s))) as [|c g] eqn:Eg.
    + right. split; [exact N|reflexivity].
    + left. unfold isValidEmailFormat. apply andb_true_iff. split.
      * rewrite MatchString_wellFormed. apply wellFormed_shape.
        exists (c :: g), (str "gmail.com"). rewrite N.
        split; [reflexivity|]. split; [discriminate|]. split; [|reflexivity].
        rewrite <- Eg. apply forallb_Forall_iff. unfold gmailLocal.
        apply before_Forall, filter_Forall, forallb_Forall_iff.
        rewrite (forallb_map_same _ _ _ lowerByte_local). exact Hloc.
      * apply Nat.leb_le. lia.
  - rewrite N. split; [|left; exact V].
    rewrite E at 3. rewrite !length_app. cbn [List.length]. rewrite !length_map. lia.
Qed.

(** X13.  The domain of an accepted address passes [utils.IsValidDomain],
    and so does the domain that the pipeline extracts from its normal form. *)
Theorem IsValidDomain_accepted {U : Unicode} (s : gostring) :
  isValidEmailFormat s = true ->
  IsValidDomain (after "@" s) = true /\
  IsValidDomain (extractDomain (normalizeEmail s)) = true.
Proof.
  intro H. destruct (normalizeEmail_closed_form _ H) as (_ & _ & _ & D).
  cbv zeta in D. destruct (accepted_parts _ H) as (E & Hne & _ & _ & _ & Hl & L).
  assert (V : IsValidDomain (after "@" s) = true).
  { apply labels_IsValidDomain; [exact Hl|].
    rewrite E, length_app in L. simpl len in L. lia. }
  split; [exact V|]. rewrite D.
  destruct (isGmailDomain (map lowerByte (after "@" s))); [reflexivity|].
  rewrite IsValidDomain_lower. exact V.
Qed.

(** X14.  [getPrimaryMXServer] answers the empty string in three cases
    only: the lookup fails, it finds no record, or the host of the first
    record of minimum preference is empty or is the root [.] (the null MX of
    a domain that takes no mail). *)
Theorem getPrimaryMXServer_empty_iff (ec : EmailChecker) (o : Oracle) (h : list Call)
    (domain : gostring) :
  let answer := o h _ (LookupMX domain) in
  fst (run o h (getPrimaryMXServer ec domain)) = [] <->
  snd answer <> None \/ fst answer = [] \/
  exists i mx, firstMinimum (fst answer) i mx /\ (Host mx = [] \/ Host mx = str ".").
Proof.
  cbv zeta. unfold getPrimaryMXServer, verbosePrintf. simpl run.
  destruct (o h _ (LookupMX domain)) as [records err]. cbn [fst snd].
  destruct err as [e|]; cbn [isNil negb orb].
  { split; [left; discriminate|]. intros _. destruct (Verbose (config ec)); reflexivity. }
  destruct records as [|a rest] eqn:E.
  { cbn. split; [auto|]. intros _. destruct (Verbose (config ec)); reflexivity. }
  rewrite <- E. replace (List.length records =? 0)%nat with false by (subst; reflexivity).
  assert (Hne : records <> []) by (subst; discriminate).
  destruct (primaryOf_firstMinimum records Hne) as (i & mx & -> & Hmin).
  cbn [run fst]. rewrite strip_trailing_dot.
  assert (S : stripDot (Host mx) = [] <-> Host mx = [] \/ Host mx = str ".").
  { unfold stripDot. destruct (Host mx) as [|x hs] eqn:Eh; [tauto|].
    destruct (exists_last (l := x :: hs) ltac:(discriminate)) as (m & b & ->).
    rewrite rev_app_distr. cbn [rev app].
    destruct (byte_eqb b ".") eqn:Eb.
    - apply byte_eqb_eq in Eb as ->. rewrite rev_involutive. split.
      + intros ->. right. reflexivity.
      + intros [X|X]; [destruct m; discriminate|].
        destruct m as [|y [|z m]]; [reflexivity|discriminate|discriminate].
    - apply byte_eqb_neq in Eb. split.
      + intro X. destruct m; discriminate.
      + intros [X|X]; [destruct m; discriminate|].
        destruct m as [|y [|z m]]; [|discriminate|discriminate].
        injection X as ->. congruence. }
  rewrite S. split.
  - intro X. right; right. eauto.
  - intros [X|[X|(j & mx' & (Hn' & Hm' & Hf') & X)]]; [congruence|congruence|].
    destruct Hmin as (Hn & Hm & Hf).
    assert (j = i).
    { destruct (Nat.lt_trichotomy j i) as [Lt|[Eq|Gt]]; [|exact Eq|].
      - pose proof (Hf _ _ Lt Hn') as X1. pose proof (Hm' _ (nth_error_In _ _ Hn)) as X2. lia.
      - pose proof (Hf' _ _ Gt Hn) as X1. pose proof (Hm _ (nth_error_In _ _ Hn')) as X2. lia. }
    subst j. rewrite Hn in Hn'. injection Hn' as <-. exact X.
Qed.

End FormatFacts.

(* ================================================================= *)
(** ** [strconv.Atoi] reads decimal integers *)

Section AtoiFacts.

Import Main Decimal.
Local Open Scope char_scope.
Local Open Scope Z_scope.

Lemma digit_value c :
  isDigitByte c = true ->
  Z.of_N (N_of_ascii c) - 48 = Z.of_N (N_of_ascii c - 48) /\
  0 <= Z.of_N (N_of_ascii c - 48) <= 9.
Proof. each_byte c; intros _; vm_compute; intuition discriminate. Qed.

Lemma digitsFrom_fold : forall s n,
  digitsFrom n s =
  if forallb isDigitByte s
  then Some (fold_left (fun n c => 10 * n + Z.of_N (N_of_ascii c - 48)) s n)
  else None.
Proof.
  induction s as [|c s IH]; intro n; [reflexivity|].
  cbn [digitsFrom forallb fold_left]. fold (isDigitByte c).
  destruct (isDigitByte c) eqn:D; [|reflexivity].
  rewrite IH. destruct (digit_value _ D) as [-> _].
  replace (n * 10) with (10 * n) by lia. reflexivity.
Qed.

Lemma digits_bound : forall s n,
  forallb isDigitByte s = true -> 0 <= n ->
  0 <= fold_left (fun n c => 10 * n + Z.of_N (N_of_ascii c - 48)) s n
    < (n + 1) * 10 ^ Z.of_nat (len s).
Proof.
  induction s as [|c s IH]; intros n H Hn.
  - simpl. lia.
  - cbn [forallb] in H. apply andb_true_iff in H as [D H].
    destruct (digit_value _ D) as [_ B]. cbn [fold_left].
    specialize (IH (10 * n + Z.of_N (N_of_ascii c - 48)) H ltac:(lia)).
    replace (Z.of_nat (len (c :: s))) with (Z.of_nat (len s) + 1) by (simpl len; lia).
    rewrite Z.pow_add_r by lia.
    assert (0 < 10 ^ Z.of_nat (len s)) by (apply Z.pow_pos_nonneg; lia).
    nia.
Qed.

(** What a non-empty text of at most 18 digits writes fits 64 bits. *)
Lemma valueOf_small ds v :
  valueOf ds = Some v -> (len ds <= 18)%nat -> 0 <= v < 10 ^ 18.
Proof.
  unfold valueOf. destruct ds as [|c ds]; [discriminate|].
  destruct (forallb isDigitByte (c :: ds)) eqn:D; [|discriminate].
  intros E L. pose proof (digits_bound _ 0 D ltac:(lia)) as B.
  assert (10 ^ Z.of_nat (len (c :: ds)) <= 10 ^ 18) by (apply Z.pow_le_mono_r; lia).
  assert (E' : fold_left (fun n c => 10 * n + Z.of_N (N_of_ascii c - 48)) (c :: ds) 0 = v)
    by congruence.
  rewrite E' in B. lia.
Qed.

Lemma valueOf_nonneg ds v : valueOf ds = Some v -> 0 <= v.
Proof.
  unfold valueOf. destruct ds as [|c ds]; [discriminate|].
  destruct (forallb isDigitByte (c :: ds)) eqn:D; [|discriminate].
  intro E. pose proof (digits_bound _ 0 D ltac:(lia)) as B.
  assert (E' : fold_left (fun n c => 10 * n + Z.of_N (N_of_ascii c - 48)) (c :: ds) 0 = v)
    by congruence.
  rewrite E' in B. lia.
Qed.

Lemma digitsFrom_valueOf ds :
  ds <> [] -> digitsFrom 0 ds = valueOf ds.
Proof.
  intro H. rewrite digitsFrom_fold. unfold valueOf. destruct ds; [congruence|reflexivity].
Qed.

Lemma Atoi_decimal s :
  Atoi s = match decimalOf s with
           | Some n => if inInt64 n then Some n else None
           | None => None
           end.
Proof.
  destruct s as [|c rest]; [reflexivity|].
  unfold Atoi, decimalOf, isSign.
  destruct (byte_eqb c "-") eqn:Em.
  - cbn [orb andb negb].
    destruct rest as [|d ds].
    { reflexivity. }
    replace (len (d :: ds) <? 1)%nat with false by reflexivity.
    replace (len (d :: ds) =? 0)%nat with false by reflexivity.
    rewrite digitsFrom_valueOf by discriminate.
    destruct ((0 <? len (c :: d :: ds))%nat && (len (c :: d :: ds) <? 19)%nat) eqn:F.
    + destruct (valueOf (d :: ds)) as [v|] eqn:V; [|reflexivity]. cbn [option_map].
      apply andb_true_iff in F as [_ F]. apply Nat.ltb_lt in F. simpl len in F.
      pose proof (valueOf_small _ _ V ltac:(simpl len; lia)) as B.
      unfold inInt64. replace (- 2 ^ 63 <=? - v) with true by (symmetry; apply Z.leb_le; lia).
      replace (- v <? 2 ^ 63) with true by (symmetry; apply Z.ltb_lt; lia). reflexivity.
    + destruct (valueOf (d :: ds)) as [v|] eqn:V; [|reflexivity]. cbn [option_map].
      pose proof (valueOf_nonneg _ _ V) as B. unfold inInt64.
      replace (- v <? 2 ^ 63) with true by (symmetry; apply Z.ltb_lt; lia).
      rewrite andb_true_r.
      destruct (2 ^ 63 <? v) eqn:C.
      * apply Z.ltb_lt in C.
        replace (- 2 ^ 63 <=? - v) with false by (symmetry; apply Z.leb_gt; lia). reflexivity.
      * apply Z.ltb_ge in C.
        replace (- 2 ^ 63 <=? - v) with true by (symmetry; apply Z.leb_le; lia). reflexivity.
  - destruct (byte_eqb c "+") eqn:Ep; cbn [orb andb negb].
    + destruct rest as [|d ds].
      { reflexivity. }
      replace (len (d :: ds) <? 1)%nat with false by reflexivity.
      replace (len (d :: ds) =? 0)%nat with false by reflexivity.
      rewrite digitsFrom_valueOf by discriminate.
      destruct ((0 <? len (c :: d :: ds))%nat && (len (c :: d :: ds) <? 19)%nat) eqn:F.
      * destruct (valueOf (d :: ds)) as [v|] eqn:V; [|reflexivity].
        apply andb_true_iff in F as [_ F]. apply Nat.ltb_lt in F. simpl len in F.
        pose proof (valueOf_small _ _ V ltac:(simpl len; lia)) as B.
        unfold inInt64. replace (- 2 ^ 63 <=? v) with true by (symmetry; apply Z.leb_le; lia).
        replace (v <? 2 ^ 63) with true by (symmetry; apply Z.ltb_lt; lia). reflexivity.
      * destruct (valueOf (d :: ds)) as [v|] eqn:V; [|reflexivity].
        pose proof (valueOf_nonneg _ _ V) as B. unfold inInt64.
        replace (- 2 ^ 63 <=? v) with true by (symmetry; apply Z.leb_le; lia).
        cbn [andb]. destruct (2 ^ 63 <=? v) eqn:C.
        -- apply Z.leb_le in C.
           replace (v <? 2 ^ 63) with false by (symmetry; apply Z.ltb_ge; lia). reflexivity.
        -- apply Z.leb_gt in C.
           replace (v <? 2 ^ 63) with true by (symmetry; apply Z.ltb_lt; lia). reflexivity.
    + replace (len (c :: rest) =? 0)%nat with false by reflexivity.
      rewrite digitsFrom_valueOf by discriminate.
      destruct ((0 <? len (c :: rest))%nat && (len (c :: rest) <? 19)%nat) eqn:F.
      * destruct (valueOf (c :: rest)) as [v|] eqn:V; [|reflexivity].
        apply andb_true_iff in F as [_ F]. apply Nat.ltb_lt in F.
        pose proof (valueOf_small _ _ V ltac:(lia)) as B.
        unfold inInt64. replace (- 2 ^ 63 <=? v) with true by (symmetry; apply Z.leb_le; lia).
        replace (v <? 2 ^ 63) with true by (symmetry; apply Z.ltb_lt; lia). reflexivity.
      * destruct (valueOf (c :: rest)) as [v|] eqn:V; [|reflexivity].
        pose proof (valueOf_nonneg _ _ V) as B. unfold inInt64.
        replace (- 2 ^ 63 <=? v) with true by (symmetry; apply Z.leb_le; lia).
        cbn [andb]. destruct (2 ^ 63 <=? v) eqn:C.
        -- apply Z.leb_le in C.
           replace (v <? 2 ^ 63) with false by (symmetry; apply Z.ltb_ge; lia). reflexivity.
        -- apply Z.leb_gt in C.
           replace (v <? 2 ^ 63) with true by (symmetry; apply Z.ltb_lt; lia). reflexivity.
Qed.

End AtoiFacts.

(* ================================================================= *)
(** ** The command line and the HTTP handler *)

Section MainFacts.

Import GoString Effects Checker Spec Calls Main Decimal.
Local Open Scope char_scope.
Context {U : Unicode}.
Variable MarshalIndent : ValidationResult -> gostring * option error.
Variable encodeError : ValidationResult -> option error.
Variable o : Oracle.

Lemma printLines_calls lines : forall h,
  forallb isPrintf (snd (run o h (printLines lines))) = true.
Proof.
  induction lines as [|l rest IH]; intro h; [reflexivity|].
  cbn [printLines]. rewrite run_bind. cbn [snd]. rewrite forallb_app, IH.
  reflexivity.
Qed.

Lemma printHumanReadableResult_calls r original verbose h :
  forallb isPrintf (snd (run o h (printHumanReadableResult r original verbose))) = true.
Proof.
  unfold printHumanReadableResult.
  destruct (Valid r), (negb (gostring_eqb (NormalizedEmail r) original)), verbose;
    reflexivity.
Qed.

(** Without the verbose setting the pipeline prints nothing. *)
Lemma ValidateEmail_silent ec h email :
  Verbose (config ec) = false ->
  filter isPrintf (snd (run o h (ValidateEmail ec email))) = [].
Proof.
  intro V. revert V.
  whole_run ec o h email ltac:(cbn; intros; try reflexivity; congruence).
Qed.

(** The checker that [main] builds from its flags. *)
Let checkerOf (f : Flags) : EmailChecker :=
  NewEmailChecker (Some {| Timeout := timeout f; Verbose := verbose f |}).

(** X15.  With an address to check, the exit status of the command tells
    the verdict: [main] returns when the address is valid and exits with
    status 1 when it is not (or when the JSON encoder fails). *)
Theorem main_exit_status (f : Flags) (h : list Call) :
  help f = false -> server f = false -> email f <> [] ->
  let r := fst (run o h (ValidateEmail (checkerOf f) (email f))) in
  fst (run o h (main MarshalIndent f)) =
  if jsonOutput f && negb (isNil (snd (MarshalIndent r))) then Exited 1
  else if Valid r then Returned else Exited 1.
Proof.
  intros Hh Hs He. cbv zeta. unfold main. rewrite Hh, Hs.
  destruct (email f) as [|c e] eqn:E; [congruence|]. cbn [gostring_eqb].
  rewrite run_bind. cbn [fst]. fold (checkerOf f).
  set (r := fst (run o h (ValidateEmail (checkerOf f) (c :: e)))).
  destruct (jsonOutput f); cbn [andb].
  - destruct (MarshalIndent r) as [js [err|]]; cbn [snd isNil negb].
    + reflexivity.
    + rewrite run_bind. cbn [fst]. destruct (Valid r); reflexivity.
  - rewrite run_bind. cbn [fst]. destruct (Valid r); reflexivity.
Qed.

(** X16.  Without an address to check [main] makes no network call: with
    [-help] it prints the help and returns, and without [-email] (and
    without [-server]) it prints an error and the help and exits with
    status 1.  [-help] goes first: an address given with it is not checked. *)
Theorem main_without_address (f : Flags) (h : list Call) :
  help f = true \/ (server f = false /\ email f = []) ->
  forallb isPrintf (snd (run o h (main MarshalIndent f))) = true /\
  fst (run o h (main MarshalIndent f)) = (if help f then Returned else Exited 1).
Proof.
  intro H. unfold main.
  destruct (help f).
  { rewrite run_bind. cbn [fst snd]. rewrite forallb_app. unfold showHelp.
    rewrite printLines_calls. split; reflexivity. }
  destruct H as [H|[Hs He]]; [discriminate|]. rewrite Hs, He. cbn [gostring_eqb].
  rewrite !run_bind. cbn [fst snd]. rewrite !forallb_app. unfold showHelp.
  rewrite printLines_calls. split; reflexivity.
Qed.

(** X17.  With [-json] and without [-verbose], all that a check writes to
    standard output is the JSON text and a newline. *)
Theorem main_json_stdout (f : Flags) (h : list Call) :
  help f = false -> server f = false -> email f <> [] ->
  jsonOutput f = true -> verbose f = false ->
  let r := fst (run o h (ValidateEmail (checkerOf f) (email f))) in
  snd (MarshalIndent r) = None ->
  exists u,
    filter isPrintf (snd (run o h (main MarshalIndent f)))
    = [call (Printf (fst (MarshalIndent r) ++ newline)) u].
Proof.
  intros Hh Hs He Hj Hv. cbv zeta. intro Hm. unfold main. rewrite Hh, Hs, Hj.
  destruct (email f) as [|c e] eqn:E; [congruence|]. cbn [gostring_eqb].
  rewrite run_bind. cbn [fst snd]. fold (checkerOf f).
  rewrite filter_app, ValidateEmail_silent by (unfold checkerOf; cbn; exact Hv).
  set (r := fst (run o h (ValidateEmail (checkerOf f) (c :: e)))) in *.
  destruct (MarshalIndent r) as [js err]. cbn [fst snd] in *. subst err.
  cbn [isNil negb]. rewrite run_bind. cbn [fst snd app].
  destruct (Valid r); cbn; eexists; reflexivity.
Qed.

(** X18.  For a malformed address the command, in its plain mode, makes no
    network call, prints two lines (the address as given with the verdict,
    and the format reason, with no line for a normal form) and exits with
    status 1. *)
Theorem main_rejects_malformed (f : Flags) (h : list Call) :
  help f = false -> server f = false -> email f <> [] ->
  jsonOutput f = false -> verbose f = false ->
  isValidEmailFormat (email f) = false ->
  exists u1 u2,
    run o h (main MarshalIndent f) =
    (Exited 1,
     [call (Printf (str "❌ Email '" ++ email f ++ str "' is invalid" ++ newline)) u1;
      call (Printf (str "⚠️  Reason: Invalid email format" ++ newline)) u2]).
Proof.
  intros Hh Hs He Hj Hv Hfmt. unfold main. rewrite Hh, Hs, Hj, Hv.
  destruct (email f) as [|c e] eqn:E; [congruence|]. cbn [gostring_eqb].
  unfold ValidateEmail. rewrite Hfmt. cbn [negb bind].
  unfold printHumanReadableResult.
  cbn [Valid NormalizedEmail Reason setValid setReason setNormalizedEmail zeroResult].
  rewrite (proj2 (gostring_eqb_eq _ _) eq_refl). cbn. do 2 eexists. reflexivity.
Qed.

(** X19.  [handleValidation] answers a request without the [email]
    parameter with status 400 and makes no call.  For any other request it
    runs the pipeline once and then sets the two headers and encodes the
    result, whatever the verdict; an error response (status 500) follows
    only when the encoding fails, and no other status is ever set. *)
Theorem handleValidation_response (r : Request) (h : list Call) :
  let ops := fst (run o h (handleValidation encodeError r)) in
  let t := snd (run o h (handleValidation encodeError r)) in
  (queryEmail r = [] ->
     ops = [HttpError (errorBody (str "Email parameter required")) 400] /\ t = []) /\
  (queryEmail r <> [] ->
     exists ec res,
       (res, t) = run o h (ValidateEmail ec (queryEmail r)) /\
       ops = [HeaderSet (str "Content-Type") (str "application/json");
              HeaderSet (str "Access-Control-Allow-Origin") (str "*");
              Encode res]
             ++ match encodeError res with
                | Some _ => [HttpError (errorBody (str "Failed to encode response")) 500]
                | None => []
                end).
Proof.
  cbv zeta. unfold handleValidation. split.
  - intros ->. split; reflexivity.
  - intro He. destruct (queryEmail r) as [|c e] eqn:E; [congruence|]. cbn [gostring_eqb].
    rewrite run_bind. cbn [fst snd]. rewrite app_nil_r.
    eexists _, _. split; [symmetry; apply surjective_pairing|].
    destruct (encodeError _); reflexivity.
Qed.

(** X20.  The checker that [handleValidation] runs has as timeout the
    integer that the [timeout] parameter writes in decimal (digits with at
    most one sign before them) when it fits 64 bits, zero and negative
    numbers included, and 10 for every other text; it is verbose only for
    the parameter [verbose=true], written so. *)
Theorem handleValidation_config (r : Request) (h : list Call) :
  queryEmail r <> [] ->
  let ec := NewEmailChecker
              (Some {| Timeout := requestTimeout (queryTimeout r);
                       Verbose := gostring_eqb (queryVerbose r) (str "true") |}) in
  snd (run o h (handleValidation encodeError r))
  = snd (run o h (ValidateEmail ec (queryEmail r))) /\
  (exists tail,
     fst (run o h (handleValidation encodeError r))
     = [HeaderSet (str "Content-Type") (str "application/json");
        HeaderSet (str "Access-Control-Allow-Origin") (str "*");
        Encode (fst (run o h (ValidateEmail ec (queryEmail r))))] ++ tail).
Proof.
  intro He. cbv zeta. unfold handleValidation.
  destruct (queryEmail r) as [|c e] eqn:E; [congruence|]. cbn [gostring_eqb].
  assert (T : (if negb (gostring_eqb (queryTimeout r) [])
               then match Atoi (queryTimeout r) with
                    | Some t => t
                    | None => 10%Z
                    end
               else 10%Z) = requestTimeout (queryTimeout r)).
  { unfold requestTimeout. rewrite Atoi_decimal.
    destruct (queryTimeout r) as [|x xs]; [reflexivity|]. cbn [gostring_eqb negb].
    destruct (decimalOf (x :: xs)) as [n|]; [|reflexivity].
    destruct (inInt64 n); reflexivity. }
  rewrite T. rewrite run_bind. cbn [fst snd]. rewrite app_nil_r.
  split; [reflexivity|]. eexists. reflexivity.
Qed.

End MainFacts.

(* ================================================================= *)
(** ** The further facts on concrete inputs *)

Section MoreInstances.

Import GoString Regexp Effects Checker Spec Calls Utils Main Decimal.
Local Open Scope char_scope.

(** The connection of a successful session is closed last, after QUIT. *)
Lemma smtpSupportsSTARTTLS_releases_secure :
  let t := snd (run secureWorld []
                  (smtpSupportsSTARTTLS verboseChecker (str "mail.example.com"))) in
  (exists t' c, t = t' ++ [call (Close 1%nat) c]) /\
  (exists t' q c k, t = t' ++ [call (Quit 2%nat) q; call (Close k) c]).
Proof.
  cbv zeta.
  destruct (smtpSupportsSTARTTLS_releases verboseChecker secureWorld []
              (str "mail.example.com")) as (_ & _ & H1 & H2 & _).
  split; [apply H1|apply H2]; vm_compute; left; reflexivity.
Defined.

(** Five seconds are five thousand million nanoseconds. *)
Lemma smtpSupportsSTARTTLS_dial_five :
  exists T ans rest,
    snd (run secureWorld [] (smtpSupportsSTARTTLS verboseChecker (str "mail.example.com")))
    = call (DialTimeout (str "tcp") (str "mail.example.com:25") T) ans :: rest /\
    T = 5000000000%Z.
Proof.
  destruct (smtpSupportsSTARTTLS_dial verboseChecker secureWorld []
              (str "mail.example.com")) as (T & ans & rest & E & H & _).
  exists T, ans, rest. split; [exact E|]. apply H. vm_compute. split; discriminate.
Defined.

Lemma ValidateEmail_releases_secure :
  let r := fst (run secureWorld []
                  (ValidateEmail (U := caselessUnicode) verboseChecker
                     (str "test@example.com"))) in
  HasMXRecord r = true /\ HasDNSSEC r = true /\ PrimaryMXServer r <> [].
Proof.
  cbv zeta.
  destruct (ValidateEmail_releases (U := caselessUnicode) verboseChecker secureWorld []
              (str "test@example.com")) as (_ & _ & _ & H).
  apply H. vm_compute. reflexivity.
Defined.

Lemma ValidateEmail_quiet_silent :
  existsb isPrintf
    (snd (run silentWorld []
            (ValidateEmail (U := caselessUnicode) defaultChecker (str "test@example.com"))))
  = false.
Proof.
  destruct (ValidateEmail_quiet (U := caselessUnicode) defaultChecker silentWorld []
              (str "test@example.com")) as (H & _).
  apply H. reflexivity.
Defined.

Lemma ValidateEmail_evidence_ordered_secure :
  PrimaryMXServer
    (fst (run secureWorld []
            (ValidateEmail (U := caselessUnicode) verboseChecker (str "test@example.com"))))
  <> [].
Proof.
  destruct (ValidateEmail_evidence_ordered (U := caselessUnicode) verboseChecker
              secureWorld [] (str "test@example.com")) as (_ & H & _).
  apply H. vm_compute. reflexivity.
Defined.

Lemma isValidEmailFormat_bounds_shortest :
  (3 <= len (str "a@b") <= 254)%nat /\ countByte "@" (str "a@b") = 1%nat /\
  isPlain (str "a@b") = true.
Proof. apply isValidEmailFormat_bounds. vm_compute. reflexivity. Defined.

Lemma isValidEmailFormat_ToLower_capitals :
  isValidEmailFormat (ToLower (U := caselessUnicode) (str "Test@Example.COM"))
  = isValidEmailFormat (str "Test@Example.COM").
Proof. apply (isValidEmailFormat_ToLower (U := caselessUnicode)). reflexivity. Defined.

(** [googlemail.com] is reported, and so probed, as [gmail.com]. *)
Lemma ValidateEmail_reports_googlemail :
  let r := fst (run silentWorld []
                  (ValidateEmail (U := caselessUnicode) defaultChecker
                     (str "Te.St+tag@GoogleMail.com"))) in
  Domain r = str "gmail.com" /\ NormalizedEmail r = str "test@gmail.com".
Proof.
  cbv zeta.
  destruct (ValidateEmail_reports (U := caselessUnicode) defaultChecker silentWorld []
              (str "Te.St+tag@GoogleMail.com")) as (D & N); [vm_compute; reflexivity|].
  cbv zeta in D, N. split; [exact D|]. rewrite N, D. vm_compute. reflexivity.
Defined.

(** An accepted address whose normal form is rejected. *)
Lemma normalizeEmail_keeps_format_exception :
  (len (normalizeEmail (U := caselessUnicode) (str "..+x@gmail.com"))
   <= len (str "..+x@gmail.com"))%nat /\
  (isValidEmailFormat (normalizeEmail (U := caselessUnicode) (str "..+x@gmail.com")) = true \/
   (normalizeEmail (U := caselessUnicode) (str "..+x@gmail.com") = str "@gmail.com" /\
    gmailLocal (map lowerByte (before "@" (str "..+x@gmail.com"))) = [])).
Proof.
  apply (normalizeEmail_keeps_format (U := caselessUnicode)). vm_compute. reflexivity.
Defined.

Lemma IsValidDomain_accepted_example :
  IsValidDomain (after "@" (str "user@Example.com")) = true /\
  IsValidDomain (extractDomain (U := caselessUnicode)
                   (normalizeEmail (U := caselessUnicode) (str "user@Example.com"))) = true.
Proof.
  apply (IsValidDomain_accepted (U := caselessUnicode)). vm_compute. reflexivity.
Defined.

(** The command on a valid address, in a world where every probe succeeds. *)
Lemma main_exit_status_secure :
  fst (run secureWorld []
         (main (U := caselessUnicode) stubMarshal
            (mkFlags (str "User.Name+x@gmail.com") false 10 false false (str "8587") false)))
  = Returned.
Proof.
  etransitivity.
  - apply (main_exit_status (U := caselessUnicode) stubMarshal secureWorld);
      [reflexivity|reflexivity|discriminate].
  - vm_compute. reflexivity.
Defined.

Lemma main_without_address_silent :
  fst (run silentWorld []
         (main (U := caselessUnicode) stubMarshal
            (mkFlags [] false 10 false false (str "8587") false)))
  = Exited 1.
Proof.
  destruct (main_without_address (U := caselessUnicode) stubMarshal silentWorld
              (mkFlags [] false 10 false false (str "8587") false) [])
    as [_ H]; [right; split; reflexivity|].
  exact H.
Defined.

Lemma main_json_stdout_silent :
  exists u,
    filter isPrintf
      (snd (run silentWorld []
              (main (U := caselessUnicode) stubMarshal
                 (mkFlags (str "test@example.com") false 10 true false (str "8587") false))))
    = [call (Printf (str "{invalid}" ++ newline)) u].
Proof.
  destruct (main_json_stdout (U := caselessUnicode) stubMarshal silentWorld
              (mkFlags (str "test@example.com") false 10 true false (str "8587") false) [])
    as [u H].
  all: try reflexivity. all: try discriminate.
  exists u. exact H.
Defined.

Lemma main_rejects_malformed_example :
  exists u1 u2,
    run secureWorld []
      (main (U := caselessUnicode) stubMarshal
         (mkFlags (str "invalid-email") false 10 false false (str "8587") false))
    = (Exited 1,
       [call (Printf (str "❌ Email 'invalid-email' is invalid" ++ newline)) u1;
        call (Printf (str "⚠️  Reason: Invalid email format" ++ newline)) u2]).
Proof.
  destruct (main_rejects_malformed (U := caselessUnicode) stubMarshal secureWorld
              (mkFlags (str "invalid-email") false 10 false false (str "8587") false) [])
    as (u1 & u2 & H).
  all: try reflexivity. all: try discriminate.
  exists u1, u2. exact H.
Defined.

Lemma handleValidation_response_no_email :
  run secureWorld []
    (handleValidation (U := caselessUnicode) (fun _ => None)
       (mkRequest [] (str "5") (str "true")))
  = ([HttpError (errorBody (str "Email parameter required")) 400], []).
Proof.
  destruct (handleValidation_response (U := caselessUnicode) (fun _ => None) secureWorld
              (mkRequest [] (str "5") (str "true")) []) as [H _].
  cbv zeta in H. destruct (H eq_refl) as [H1 H2].
  rewrite (surjective_pairing (run _ _ _)), H1, H2. reflexivity.
Defined.

(** A negative timeout is taken as it is written. *)
Lemma handleValidation_config_negative :
  snd (run secureWorld []
         (handleValidation (U := caselessUnicode) (fun _ => None)
            (mkRequest (str "test@example.com") (str "-5") (str "TRUE"))))
  = snd (run secureWorld []
           (ValidateEmail (U := caselessUnicode)
              (NewEmailChecker (Some (mkConfig (-5) false))) (str "test@example.com"))).
Proof.
  destruct (handleValidation_config (U := caselessUnicode) (fun _ => None) secureWorld
              (mkRequest (str "test@example.com") (str "-5") (str "TRUE")) [])
    as [H _]; [discriminate|].
  exact H.
Defined.

End MoreInstances.
